(** * Progress-tracking observers of the voice agent pipeline

    A shallow embedding of [backend/progress_tracker.py]: the three frame
    processors [STTProgressProcessor], [LLMProgressProcessor] and
    [TTSStatusProcessor], each of which inspects the frames flowing through
    the pipeline, pushes status / transcript / log messages for the client
    and then pushes the frame it received.

    Python values are modelled as follows.
    - [str] is [string], a sequence of characters; [len] is
      [String.length], [s[:n]] is [String.substring 0 n s], f-strings and
      [+] are [+:+].  A character is an [ascii]; nothing below depends on
      which characters there are.
    - [int] is [Z] (unbounded).
    - a message [dict] is a [gmap string Value].
    - the instance fields of a processor are a record, threaded through a
      small state/output/exception monad [M].
    - [push_frame] is the one effect that is observed; the calls to
      [logger] write to the server log only and are left out. *)

From Stdlib Require Import ZArith DecimalString Sorted.
From stdpp Require Import base option list strings gmap.

(** ** Frames and messages *)

(** The JSON-like values stored in a message dictionary. *)
Inductive Value : Type :=
| VStr (s : string)
| VBool (b : bool)
| VInt (n : Z).

Abbreviation Message := (gmap string Value).

(** [pipecat.processors.frame_processor.FrameDirection]. *)
Inductive FrameDirection : Type := DOWNSTREAM | UPSTREAM.

(** The frame classes imported by the module, as a closed variant: one
    constructor per class the processors test with [isinstance], the
    [OutputTransportMessageFrame] they build, and [OtherFrame] for every
    other class of the library (its argument is the class name). *)
Inductive Frame : Type :=
| InterimTranscriptionFrame (text : string)
| TranscriptionFrame (text : string)
| LLMFullResponseStartFrame
| LLMTextFrame (text : string)
| LLMFullResponseEndFrame
| TTSStartedFrame
| TTSStoppedFrame
| TTSSpeakFrame (text : string)
| StartInterruptionFrame
| OutputTransportMessageFrame (message : Message)
| OtherFrame (name : string).

(** One call of [push_frame(frame, direction)]. *)
Abbreviation Pushed := (Frame * FrameDirection)%type.

(** The double-quote character (code 34) of the Python f-strings. *)
Definition dquote : string := String (Ascii.Ascii false true false false false true false false) EmptyString.

(** [str(n)] for a length. *)
Definition str_of_len (n : nat) : string := NilEmpty.string_of_uint (Nat.to_uint n).

(** ** The monad of a processor method

    A method runs against the environment of the call: what the next
    stage does with a pushed frame ([sink] answers [false] when
    [push_frame] raises) and the reading [int(time.time() * 1000)] of the
    clock (no method reads it more than once per call).  It yields the
    fields of [self] as the method left them, the frames it pushed, in
    order, and its result, [None] when an exception left the method. *)
Record Env : Type := mkEnv {
  sink : Pushed -> bool;
  time_ms : Z
}.

Record Outcome (S A : Type) : Type := mkOutcome {
  result : option A;
  self : S;
  pushed : list Pushed
}.
Arguments mkOutcome {S A} _ _ _.
Arguments result {S A} _.
Arguments self {S A} _.
Arguments pushed {S A} _.

Definition M (S A : Type) : Type := Env -> S -> Outcome S A.

#[global] Instance M_ret {S} : MRet (M S) :=
  fun A (a : A) _ s => mkOutcome (Some a) s [].

(** Sequencing: an exception in the first computation skips the second;
    the pushes and field updates made before it stay. *)
#[global] Instance M_bind {S} : MBind (M S) :=
  fun A B (k : A -> M S B) (m : M S A) e s =>
    let o := m e s in
    match result o with
    | None => mkOutcome None (self o) (pushed o)
    | Some a =>
        let o' := k a e (self o) in
        mkOutcome (result o') (self o') (pushed o ++ pushed o')
    end.

Definition get {S} : M S S := fun _ s => mkOutcome (Some s) s [].
Definition put {S} (s : S) : M S unit := fun _ _ => mkOutcome (Some tt) s [].
Definition now {S} : M S Z := fun e s => mkOutcome (Some (time_ms e)) s [].

(** [await self.push_frame(frame, direction)]: the frame reaches the next
    stage, or the call raises and nothing is delivered. *)
Definition push_frame {S} (frame : Frame) (direction : FrameDirection) : M S unit :=
  fun e s =>
    if sink e (frame, direction)
    then mkOutcome (Some tt) s [(frame, direction)]
    else mkOutcome None s [].

(** [await super().process_frame(frame, direction)]: the bookkeeping of
    the library's base class, which pushes nothing and reads or writes no
    field of the three processors. *)
Definition super_process_frame {S} (frame : Frame) (direction : FrameDirection) : M S unit :=
  mret tt.

(** An environment in which every push is delivered. *)
Definition reliable (t : Z) : Env := mkEnv (fun _ => true) t.

(** ** STTProgressProcessor *)
Module STTProgressProcessor.

Record State : Type := mkState { _user_message_id : Z }.

Definition __init__ : State := mkState 0.

Definition _send_status (status : string) (text : option string) : M State unit :=
  let message : Message := {[ "type" := VStr "status"; "status" := VStr status ]} in
  let message :=
    match text with
    | Some (String _ _ as t) => <["text" := VStr t]> message
    | _ => message
    end in
  push_frame (OutputTransportMessageFrame message) DOWNSTREAM.

Definition _send_transcript (role text : string) (final : bool)
    (message_id : option Z) : M State unit :=
  t ← now;
  let message : Message :=
    {[ "type" := VStr "transcript"; "role" := VStr role; "text" := VStr text;
       "final" := VBool final; "timestamp" := VInt t ]} in
  let message :=
    match message_id with
    | Some i => <["messageId" := VInt i]> message
    | None => message
    end in
  push_frame (OutputTransportMessageFrame message) DOWNSTREAM.

Definition _send_log (text : string) : M State unit :=
  push_frame (OutputTransportMessageFrame {[ "type" := VStr "log"; "text" := VStr text ]})
             DOWNSTREAM.

Definition process_frame (frame : Frame) (direction : FrameDirection) : M State unit :=
  super_process_frame frame direction;;
  match frame with
  | InterimTranscriptionFrame text =>
      _send_status "listening" (Some text)
  | TranscriptionFrame text =>
      s ← get;
      put (mkState (_user_message_id s + 1));;
      _send_status "stt" (Some text);;
      _send_log ("STT: " +:+ dquote +:+ String.substring 0 50 text
                 +:+ (if (50 <? String.length text)%nat then "..." else EmptyString)
                 +:+ dquote);;
      s ← get;
      _send_transcript "user" text true (Some (_user_message_id s));;
      _send_status "llm" None;;
      _send_log "Sending to LLM..."
  | _ => mret tt
  end;;
  push_frame frame direction.

End STTProgressProcessor.

(** ** LLMProgressProcessor *)
Module LLMProgressProcessor.

Record State : Type := mkState {
  _assistant_text : string;
  _assistant_message_id : Z
}.

Definition __init__ : State := mkState EmptyString 0.

Definition set_assistant_text (v : string) : M State unit :=
  s ← get; put (mkState v (_assistant_message_id s)).

Definition set_assistant_message_id (v : Z) : M State unit :=
  s ← get; put (mkState (_assistant_text s) v).

Definition _send_transcript (role text : string) (final : bool)
    (message_id : option Z) : M State unit :=
  t ← now;
  let message : Message :=
    {[ "type" := VStr "transcript"; "role" := VStr role; "text" := VStr text;
       "final" := VBool final; "timestamp" := VInt t ]} in
  let message :=
    match message_id with
    | Some i => <["messageId" := VInt i]> message
    | None => message
    end in
  push_frame (OutputTransportMessageFrame message) DOWNSTREAM.

Definition _send_log (text : string) : M State unit :=
  push_frame (OutputTransportMessageFrame {[ "type" := VStr "log"; "text" := VStr text ]})
             DOWNSTREAM.

Definition process_frame (frame : Frame) (direction : FrameDirection) : M State unit :=
  super_process_frame frame direction;;
  match frame with
  | LLMFullResponseStartFrame =>
      set_assistant_text EmptyString;;
      s ← get;
      set_assistant_message_id (_assistant_message_id s + 1);;
      _send_log "LLM streaming response..."
  | LLMTextFrame text =>
      s ← get;
      set_assistant_text (_assistant_text s +:+ text);;
      s ← get;
      _send_transcript "assistant" (_assistant_text s) false
                       (Some (_assistant_message_id s))
  | LLMFullResponseEndFrame =>
      s ← get;
      match _assistant_text s with
      | String _ _ =>
          _send_transcript "assistant" (_assistant_text s) true
                           (Some (_assistant_message_id s));;
          s ← get;
          _send_log ("LLM complete: " +:+ str_of_len (String.length (_assistant_text s))
                     +:+ " chars");;
          set_assistant_text EmptyString
      | EmptyString => mret tt
      end;;
      _send_log "Sending to TTS..."
  | _ => mret tt
  end;;
  push_frame frame direction.

End LLMProgressProcessor.

(** ** TTSStatusProcessor *)
Module TTSStatusProcessor.

Record State : Type := mkState { _is_speaking : bool }.

Definition __init__ : State := mkState false.

Definition process_frame (frame : Frame) (direction : FrameDirection) : M State unit :=
  super_process_frame frame direction;;
  match frame with
  | StartInterruptionFrame =>
      s ← get;
      if _is_speaking s then
        put (mkState false);;
        push_frame (OutputTransportMessageFrame
                      {[ "type" := VStr "status"; "status" := VStr "idle" ]}) DOWNSTREAM;;
        push_frame (OutputTransportMessageFrame
                      {[ "type" := VStr "log"; "text" := VStr "Interrupted by user" ]})
                   DOWNSTREAM
      else mret tt
  | TTSStartedFrame =>
      s ← get;
      if negb (_is_speaking s) then
        put (mkState true);;
        push_frame (OutputTransportMessageFrame
                      {[ "type" := VStr "status"; "status" := VStr "tts" ]}) DOWNSTREAM;;
        push_frame (OutputTransportMessageFrame
                      {[ "type" := VStr "log"; "text" := VStr "TTS speaking..." ]})
                   DOWNSTREAM
      else mret tt
  | TTSStoppedFrame =>
      s ← get;
      if _is_speaking s then
        put (mkState false);;
        push_frame (OutputTransportMessageFrame
                      {[ "type" := VStr "status"; "status" := VStr "idle" ]}) DOWNSTREAM;;
        push_frame (OutputTransportMessageFrame
                      {[ "type" := VStr "log"; "text" := VStr "Ready" ]}) DOWNSTREAM
      else mret tt
  | TTSSpeakFrame text =>
      s ← get;
      (if negb (_is_speaking s) then
         put (mkState true);;
         push_frame (OutputTransportMessageFrame
                       {[ "type" := VStr "status"; "status" := VStr "tts" ]}) DOWNSTREAM
       else mret tt);;
      let text_preview :=
        if (30 <? String.length text)%nat
        then String.substring 0 30 text +:+ "..."
        else text in
      push_frame (OutputTransportMessageFrame
                    {[ "type" := VStr "log";
                       "text" := VStr ("TTS: " +:+ dquote +:+ text_preview +:+ dquote) ]})
                 DOWNSTREAM
  | _ => mret tt
  end;;
  push_frame frame direction.

End TTSStatusProcessor.

(** ** The pipeline's view of a processor *)

(** What the three classes share through [FrameProcessor]: fields created
    by [__init__] and the [process_frame] method. *)
Class FrameProcessor (St : Type) : Type := {
  init : St;
  process_frame : Frame -> FrameDirection -> M St unit
}.

#[global] Instance stt_progress : FrameProcessor STTProgressProcessor.State := {|
  init := STTProgressProcessor.__init__;
  process_frame := STTProgressProcessor.process_frame
|}.

#[global] Instance llm_progress : FrameProcessor LLMProgressProcessor.State := {|
  init := LLMProgressProcessor.__init__;
  process_frame := LLMProgressProcessor.process_frame
|}.

#[global] Instance tts_status : FrameProcessor TTSStatusProcessor.State := {|
  init := TTSStatusProcessor.__init__;
  process_frame := TTSStatusProcessor.process_frame
|}.

(** A processor handles the frames of a session one call after the other,
    each to completion.  [run clock s inputs] feeds [inputs] to the
    processor whose fields are [s], every push being delivered; the n-th
    call reads [clock n] from the clock.  It returns the fields after the
    last call and, per call, the frames that call pushed. *)
Fixpoint run {St} `{FrameProcessor St} (clock : nat -> Z) (s : St)
    (inputs : list Pushed) : St * list (list Pushed) :=
  match inputs with
  | [] => (s, [])
  | (frame, direction) :: rest =>
      let o := process_frame frame direction (reliable (clock 0%nat)) s in
      let r := run (fun n => clock (S n)) (self o) rest in
      (r.1, pushed o :: r.2)
  end.

(** ** Reading a trace *)

(** A message for the client, as the processors push it. *)
Definition notify (m : Message) : Pushed := (OutputTransportMessageFrame m, DOWNSTREAM).

Definition is_notification (p : Pushed) : bool :=
  match p with
  | (OutputTransportMessageFrame _, DOWNSTREAM) => true
  | _ => false
  end.

(** The last push of a call and the pushes before it. *)
Definition forwarded (tr : list Pushed) : option Pushed := last tr.
Definition emitted (tr : list Pushed) : list Pushed := removelast tr.

Definition message_of (p : Pushed) : option Message :=
  match p with
  | (OutputTransportMessageFrame m, DOWNSTREAM) => Some m
  | _ => None
  end.

(** The messages emitted by the calls of a run, in order. *)
Definition notifications (trs : list (list Pushed)) : list Message :=
  omap message_of (concat (emitted <$> trs)).

#[global] Instance Value_eq_dec : EqDecision Value.
Proof. solve_decision. Defined.

(** The [messageId] of a transcript message of the given role. *)
Definition transcript_id (role : string) (m : Message) : option Z :=
  if decide (m !! "type" = Some (VStr "transcript") ∧ m !! "role" = Some (VStr role))
  then match m !! "messageId" with
       | Some (VInt i) => Some i
       | _ => None
       end
  else None.




(** ** Statements *)

(** One call, every push delivered: the method returns, and what it pushed
    is a list of messages for the client followed by the frame it was
    given, in the direction it was given. *)
Definition forwards_after_notifying {St} (pf : Frame -> FrameDirection -> M St unit) : Prop :=
  forall f d t s, exists ms,
    result (pf f d (reliable t) s) = Some tt /\
    pushed (pf f d (reliable t) s) = (notify <$> ms) ++ [(f, d)].

(** What the forwarding invariant says of one processor: over any input
    sequence, the last push of the n-th call is the n-th input, every
    push before it in that call is a message for the client, and the
    pushes of the whole run that are not such messages are the inputs
    that are not, in input order. *)
Definition forwards_every_frame (St : Type) `{FrameProcessor St} : Prop :=
  forall (clock : nat -> Z) (s : St) (inputs : list Pushed),
    let trs := (run clock s inputs).2 in
    forwarded <$> trs = Some <$> inputs /\
    Forall (fun tr => Forall (fun p => is_notification p = true) (emitted tr)) trs /\
    List.filter (fun p => negb (is_notification p)) (concat trs)
      = List.filter (fun p => negb (is_notification p)) inputs.

Abbreviation assistant_transcript text final t i :=
  (notify {[ "type" := VStr "transcript"; "role" := VStr "assistant"; "text" := VStr text;
             "final" := VBool final; "timestamp" := VInt t; "messageId" := VInt i ]}).

Abbreviation log_message text :=
  (notify {[ "type" := VStr "log"; "text" := VStr text ]}).

(** The frames of a list of text chunks. *)
Definition text_frames (cs : list (string * FrameDirection)) : list Pushed :=
  (fun c => (LLMTextFrame c.1, c.2)) <$> cs.




(** ** Further readings of a trace *)

(** The frames of a list of interim transcriptions. *)
Definition interim_frames (ts : list (string * FrameDirection)) : list Pushed :=
  (fun c => (InterimTranscriptionFrame c.1, c.2)) <$> ts.




(** The [status] of a status message. *)
Definition status_of (m : Message) : option Value :=
  if decide (m !! "type" = Some (VStr "status")) then m !! "status" else None.

Definition statuses (ms : list Message) : list Value := omap status_of ms.

(** [n] statuses in turn, idle first when speaking and tts first when not. *)
Fixpoint alternate (speaking : bool) (n : nat) : list Value :=
  match n with
  | O => []
  | S n' => VStr (if speaking then "idle" else "tts") :: alternate (negb speaking) n'
  end.

(** The text of a final assistant transcript. *)
Definition final_assistant_text (m : Message) : option Value :=
  if decide (m !! "type" = Some (VStr "transcript") /\
             m !! "role" = Some (VStr "assistant") /\
             m !! "final" = Some (VBool true))
  then m !! "text" else None.

(** The speaking flag flips exactly when the call emits a status. *)
Definition tts_toggles (f : Frame) (speaking : bool) : bool :=
  match f with
  | StartInterruptionFrame | TTSStoppedFrame => speaking
  | TTSStartedFrame | TTSSpeakFrame _ => negb speaking
  | _ => false
  end.

(** A computation that leaves the fields alone, whether it raises or not. *)
Definition keeps_self {St A} (m : M St A) : Prop :=
  forall e s, self (m e s) = s.

(** ** WebSearcher ([backend/web_search.py]) *)
Module WebSearcher.

(** A value of a result dictionary: a string, or [None]. *)
Inductive Any : Type :=
| AStr (s : string)
| ANone.

(** [str(v)], as an f-string renders the value. *)
Definition py_str (v : Any) : string :=
  match v with
  | AStr s => s
  | ANone => "None"
  end.

(** One element of [response.results]. *)
Record ExaResult : Type := mkResult {
  title : Any;
  url : Any;
  text : option string
}.

(** What lies outside the module: whether [exa_py] could be imported, the
    [EXA_API_KEY] variable, and the answer of the service to
    [search_and_contents] for a client built with the given key: the
    message of the exception it raises, or its results. *)
Record World : Type := mkWorld {
  exa_installed : bool;
  getenv_EXA_API_KEY : option string;
  search_and_contents : string -> string -> Z -> string + list ExaResult
}.

(** The fields of a searcher; [_client] holds the key the client was built
    with. *)
Record State : Type := mkState {
  api_key : option string;
  _client : option string
}.

(** [a or b] on optional strings: [None] and the empty string are falsy. *)
Definition py_or (a b : option string) : option string :=
  match a with
  | Some (String _ _) => a
  | _ => b
  end.

Definition __init__ (w : World) (api_key : option string) : State :=
  mkState (py_or api_key (getenv_EXA_API_KEY w)) None.

(** The [client] property: the fields after the access and the value. *)
Definition client (w : World) (s : State) : State * option string :=
  match _client s, exa_installed w, api_key s with
  | None, true, Some (String c k) =>
      (mkState (api_key s) (Some (String c k)), Some (String c k))
  | _, _, _ => (s, _client s)
  end.

(** [search]: the [client] property is read for the test and again for
    the call; whatever is raised inside the [try] becomes an error
    dictionary. *)
Definition search (w : World) (s : State) (query : string) (num_results : Z) :
    State * list (gmap string Any) :=
  let (s, c) := client w s in
  match c with
  | None => (s, [ {[ "error" := AStr "Web search is not configured" ]} ])
  | Some _ =>
      let (s, c) := client w s in
      match c with
      | None => (s, [ {[ "error" := AStr "'NoneType' object has no attribute 'search_and_contents'" ]} ])
      | Some key =>
          match search_and_contents w key query num_results with
          | inl e => (s, [ {[ "error" := AStr e ]} ])
          | inr results =>
              (s, (fun result =>
                     {[ "title" := title result;
                        "url" := url result;
                        "text" := AStr match text result with
                                       | Some (String c t) =>
                                           String.substring 0 500 (String c t)
                                       | _ => EmptyString
                                       end ]}) <$> results)
          end
      end
  end.

(** The outcome of a call that may raise [KeyError]. *)
Inductive Res (A : Type) : Type :=
| Ok (a : A)
| KeyError (key : string).
Arguments Ok {A} _.
Arguments KeyError {A} _.

(** [d[key]]. *)
Definition getitem (d : gmap string Any) (key : string) : Res Any :=
  match d !! key with
  | Some v => Ok v
  | None => KeyError key
  end.

(** The newline character (code 10). *)
Definition nl : string :=
  String (Ascii.Ascii false true false true false false false false) EmptyString.

(** [str(i)] for a position. *)
Definition str_of_nat (i : nat) : string := NilEmpty.string_of_uint (Nat.to_uint i).

(** The body of the loop for the [i]-th result. *)
Definition format_entry (i : nat) (result : gmap string Any) : Res string :=
  match getitem result "title" with
  | KeyError k => KeyError k
  | Ok t =>
      match getitem result "url" with
      | KeyError k => KeyError k
      | Ok u =>
          match getitem result "text" with
          | KeyError k => KeyError k
          | Ok x =>
              Ok (str_of_nat i +:+ ". " +:+ py_str t +:+ nl
                  +:+ "   URL: " +:+ py_str u +:+ nl
                  +:+ "   " +:+ py_str x)
          end
      end
  end.

(** The loop over [enumerate(results, i)]: the entries, or the first
    [KeyError]. *)
Fixpoint format_entries (i : nat) (results : list (gmap string Any)) : Res (list string) :=
  match results with
  | [] => Ok []
  | result :: rest =>
      match format_entry i result with
      | KeyError k => KeyError k
      | Ok entry =>
          match format_entries (S i) rest with
          | KeyError k => KeyError k
          | Ok entries => Ok (entry :: entries)
          end
      end
  end.

Definition format_results_for_llm (results : list (gmap string Any)) : Res string :=
  match results with
  | [] => Ok "No results found."
  | first :: _ =>
      match first !! "error" with
      | Some e => Ok ("Search error: " +:+ py_str e)
      | None =>
          match format_entries 1 results with
          | KeyError k => KeyError k
          | Ok formatted => Ok (String.concat (nl +:+ nl) formatted)
          end
      end
  end.


(** The entry the formatter writes for the [i]-th result of the service. *)
Definition entry_of (i : nat) (r : ExaResult) : string :=
  str_of_nat i +:+ ". " +:+ py_str (title r) +:+ nl
  +:+ "   URL: " +:+ py_str (url r) +:+ nl
  +:+ "   " +:+ match text r with
                | Some (String c t) => String.substring 0 500 (String c t)
                | _ => EmptyString
                end.

(** A dictionary with the three keys the formatter reads. *)
Definition has_result_keys (d : gmap string Any) : Prop :=
  is_Some (d !! "title") /\ is_Some (d !! "url") /\ is_Some (d !! "text").

Definition is_Ok {A} (r : Res A) : Prop :=
  match r with Ok _ => True | KeyError _ => False end.

End WebSearcher.

(** ** The [search_web] tool of [backend/bot.py] *)

(** [search_web(params)], from the module-level [web_searcher] and
    [params.arguments]: the searcher the global holds afterwards and the
    text handed to [params.result_callback]. *)
Definition search_web (w : WebSearcher.World) (web_searcher : option WebSearcher.State)
    (arguments : gmap string string) :
    option WebSearcher.State * WebSearcher.Res string :=
  let query := default EmptyString (arguments !! "query") in
  let searcher :=
    match web_searcher with
    | None => WebSearcher.__init__ w None
    | Some s => s
    end in
  let (searcher, results) := WebSearcher.search w searcher query 3 in
  (Some searcher, WebSearcher.format_results_for_llm results).

(** ** BookProcessor ([backend/book_processor.py]) *)
Module BookProcessor.

(** The exceptions the module raises or lets through: its own
    [ValueError]s, the [KeyError] of a missing key in the answer of the
    service, anything else. *)
Inductive Exn : Type :=
| ValueError (msg : string)
| KeyError (key : string)
| Exception (msg : string).

(** The JSON object [upload_file] answers with. *)
Abbreviation FileInfo := (gmap string (gmap string string)).

(** A request sent to the Gemini File API. *)
Inductive Call : Type :=
| Upload (path display_name : string)
| Delete (name : string).

(** What lies outside the module: the [GOOGLE_API_KEY] variable; the name
    [tempfile.NamedTemporaryFile] picks for a suffix, given the files
    there are, or the error it raises; the answer of the service to
    [upload_file] for a client built with the given key; whether
    [os.unlink] raises.  The answer to [delete_file] is only logged, and
    writing the content to the temporary file is taken to succeed. *)
Record Env : Type := mkEnv {
  getenv_GOOGLE_API_KEY : option string;
  NamedTemporaryFile : gmap string (list Byte.byte) -> string -> Exn + string;
  upload_file : string -> string -> string -> Exn + FileInfo;
  unlink : string -> option Exn
}.

(** The fields of a processor; [_file_api] holds the key the client was
    built with. *)
Record State : Type := mkState {
  api_key : option string;
  _file_api : option string;
  file_info : option FileInfo;
  file_uri : option string;
  mime_type : option string;
  book_title : option string;
  _temp_file_path : option string
}.

(** A processor in its surroundings: its fields, the temporary files on
    disk with their contents, and the requests sent so far. *)
Record Sys : Type := mkSys {
  self : State;
  files : gmap string (list Byte.byte);
  calls : list Call
}.

Definition MAX_FILE_SIZE : Z := 10 * 1024 * 1024.

(** [a or b] on optional strings: [None] and the empty string are falsy. *)
Definition py_or (a b : option string) : option string :=
  match a with
  | Some (String _ _) => a
  | _ => b
  end.

Definition __init__ (e : Env) (api_key : option string) : State :=
  mkState (py_or api_key (getenv_GOOGLE_API_KEY e)) None None None None None None.

(** [str.lower] on the letters A to Z; other characters are kept. *)
Definition lower_char (c : Ascii.ascii) : Ascii.ascii :=
  let n := Ascii.nat_of_ascii c in
  if ((65 <=? n) && (n <=? 90))%nat then Ascii.ascii_of_nat (n + 32) else c.

Fixpoint lower (s : string) : string :=
  match s with
  | EmptyString => EmptyString
  | String c s' => String (lower_char c) (lower s')
  end.

(** [s.endswith(suffix)]. *)
Definition endswith (s suffix : string) : bool :=
  let n := String.length s in
  let m := String.length suffix in
  ((m <=? n)%nat && String.eqb (String.substring (n - m) m s) suffix)%bool.

(** [str(n)] for a number of megabytes. *)
Definition str_of_Z (n : Z) : string := NilEmpty.string_of_uint (N.to_uint (Z.to_N n)).

Definition with_self (x : Sys) (s : State) : Sys := mkSys s (files x) (calls x).

(** The [file_api] property: builds the client on first use. *)
Definition file_api (x : Sys) : Sys * (Exn + string) :=
  match _file_api (self x) with
  | Some k => (x, inr k)
  | None =>
      match api_key (self x) with
      | Some (String c k) =>
          let s := self x in
          (with_self x (mkState (api_key s) (Some (String c k)) (file_info s) (file_uri s)
                                (mime_type s) (book_title s) (_temp_file_path s)),
           inr (String c k))
      | _ => (x, inl (ValueError "GOOGLE_API_KEY is required for file uploads"))
      end
  end.

(** [clear]: both deletions are attempted, their errors are logged and
    dropped, and the five fields of the book are reset. *)
Definition clear (e : Env) (x : Sys) : Sys :=
  let x :=
    match file_info (self x) with
    | Some fi =>
        if decide (fi = ∅) then x
        else
          match fi !! "file" with
          | None => x
          | Some f =>
              match f !! "name" with
              | None => x
              | Some file_name =>
                  let (x, api) := file_api x in
                  match api with
                  | inl _ => x
                  | inr key => mkSys (self x) (files x) (calls x ++ [Delete file_name])
                  end
              end
          end
    | None => x
    end in
  let x :=
    match _temp_file_path (self x) with
    | Some (String c p) =>
        match files x !! String c p with
        | Some _ =>
            match unlink e (String c p) with
            | None => mkSys (self x) (delete (String c p) (files x)) (calls x)
            | Some _ => x
            end
        | None => x
        end
    | _ => x
    end in
  let s := self x in
  with_self x (mkState (api_key s) (_file_api s) None None None None None).

Definition supported (filename : string) : bool :=
  endswith (lower filename) ".pdf" || endswith (lower filename) ".txt".

Definition process_file (e : Env) (file_content : list Byte.byte) (filename : string)
    (x : Sys) : Sys * (Exn + gmap string string) :=
  if (MAX_FILE_SIZE <? Z.of_nat (length file_content))%Z then
    (x, inl (ValueError ("File too large. Max size is "
                         +:+ str_of_Z (MAX_FILE_SIZE / (1024 * 1024)) +:+ "MB")))
  else if negb (endswith (lower filename) ".pdf" || endswith (lower filename) ".txt") then
    (x, inl (ValueError "Only PDF and TXT files are supported"))
  else
    let s := self x in
    let x := with_self x (mkState (api_key s) (_file_api s) (file_info s) (file_uri s)
                                  (mime_type s) (Some filename) (_temp_file_path s)) in
    let mime := if endswith (lower filename) ".pdf" then "application/pdf" else "text/plain" in
    let s := self x in
    let x := with_self x (mkState (api_key s) (_file_api s) (file_info s) (file_uri s)
                                  (Some mime) (book_title s) (_temp_file_path s)) in
    let suffix := if endswith (lower filename) ".pdf" then ".pdf" else ".txt" in
    match NamedTemporaryFile e (files x) suffix with
    | inl exn => (x, inl exn)
    | inr name =>
        let s := self x in
        let x := mkSys (mkState (api_key s) (_file_api s) (file_info s) (file_uri s)
                                (mime_type s) (book_title s) (Some name))
                       (<[name := file_content]> (files x)) (calls x) in
        let (x, api) := file_api x in
        match api with
        | inl exn => (clear e x, inl exn)
        | inr key =>
            let x := mkSys (self x) (files x) (calls x ++ [Upload name filename]) in
            match upload_file e key name filename with
            | inl exn => (clear e x, inl exn)
            | inr fi =>
                let s := self x in
                let x := with_self x (mkState (api_key s) (_file_api s) (Some fi) (file_uri s)
                                              (mime_type s) (book_title s)
                                              (_temp_file_path s)) in
                match fi !! "file" with
                | None => (clear e x, inl (KeyError "file"))
                | Some f =>
                    match f !! "uri" with
                    | None => (clear e x, inl (KeyError "uri"))
                    | Some uri =>
                        let s := self x in
                        let x := with_self x (mkState (api_key s) (_file_api s) (file_info s)
                                                      (Some uri) (mime_type s) (book_title s)
                                                      (_temp_file_path s)) in
                        match f !! "name" with
                        | None => (clear e x, inl (KeyError "name"))
                        | Some file_name =>
                            (x, inr {[ "file_uri" := uri;
                                       "mime_type" := mime;
                                       "filename" := filename;
                                       "file_name" := file_name ]})
                        end
                    end
                end
            end
        end
    end.

Definition get_file_uri (s : State) : option string := file_uri s.
Definition get_mime_type (s : State) : option string := mime_type s.
Definition get_title (s : State) : option string := book_title s.
Definition has_file (s : State) : bool :=
  match file_uri s with Some _ => true | None => false end.


(** The five fields of the book are unset. *)
Definition cleared (s : State) : Prop :=
  file_info s = None /\ file_uri s = None /\ mime_type s = None /\
  book_title s = None /\ _temp_file_path s = None.


(** Surroundings and processors used as examples. *)
Definition demo_env : Env :=
  mkEnv None
        (fun _ suffix => inr ("/tmp/book" +:+ suffix))
        (fun _ _ _ => inr {[ "file" := {[ "uri" := "gemini://files/1";
                                          "name" := "files/1" ]} ]})
        (fun _ => None).

Definition failing_env : Env :=
  mkEnv None
        (fun _ suffix => inr ("/tmp/book" +:+ suffix))
        (fun _ _ _ => inl (Exception "503 Service Unavailable"))
        (fun _ => None).

Definition holding_first_book : Sys :=
  mkSys (mkState (Some "key") (Some "key")
                 (Some {[ "file" := {[ "uri" := "gemini://files/1"; "name" := "files/1" ]} ]})
                 (Some "gemini://files/1") (Some "application/pdf") (Some "first.pdf")
                 (Some "/tmp/first.pdf"))
        {[ "/tmp/first.pdf" := [] ]} [Upload "/tmp/first.pdf" "first.pdf"].

End BookProcessor.

(** ** The upload endpoints of [backend/server.py] *)
Module Server.

Import BookProcessor.

(** A value of a response body. *)
Inductive JVal : Type :=
| JStr (s : string)
| JBool (b : bool).

(** What an endpoint answers: the body it returns, or the
    [HTTPException] it raises. *)
Inductive Response : Type :=
| Return (body : gmap string JVal)
| HTTPException (status_code : Z) (detail : string).

(** An entry of the module-level [sessions] dictionary. *)
Record Session : Type := mkSession {
  book_processor : BookProcessor.State;
  file_uri : option string;
  mime_type : option string;
  book_title : option string
}.

(** The server in its surroundings: [sessions], the temporary files on
    disk and the requests sent to the Gemini File API. *)
Record Server : Type := mkServer {
  sessions : gmap string Session;
  files : gmap string (list Byte.byte);
  calls : list Call
}.

(** The uploaded file: its name, and what [await file.read()] gives. *)
Record UploadFile : Type := mkUpload {
  filename : option string;
  read : Exn + list Byte.byte
}.

(** [str(e)]. *)
Definition str_of_exn (e : Exn) : string :=
  match e with
  | ValueError msg => msg
  | KeyError key => "'" +:+ key +:+ "'"
  | Exception msg => msg
  end.

(** The two [except] clauses of [upload_book]. *)
Definition upload_error (e : Exn) : Response :=
  match e with
  | ValueError _ => HTTPException 400 (str_of_exn e)
  | _ => HTTPException 500 ("Failed to upload: " +:+ str_of_exn e)
  end.

Definition create_session (env : Env) (uuid4 : string) (srv : Server) : Server * Response :=
  (mkServer (<[uuid4 := mkSession (BookProcessor.__init__ env None) None None None]>
               (sessions srv))
            (files srv) (calls srv),
   Return {[ "session_id" := JStr uuid4 ]}).

Definition upload_book (env : Env) (session_id : string) (file : UploadFile)
    (srv : Server) : Server * Response :=
  match sessions srv !! session_id with
  | None => (srv, HTTPException 404 "Session not found")
  | Some session =>
      let filename :=
        match filename file with
        | Some (String c f) => String c f
        | _ => "unknown"
        end in
      if negb (endswith (lower filename) ".pdf" || endswith (lower filename) ".txt") then
        (srv, HTTPException 400 "Only PDF and TXT files are supported")
      else
        match read file with
        | inl e => (srv, upload_error e)
        | inr content =>
            let (x, result) :=
              process_file env content filename
                (mkSys (book_processor session) (files srv) (calls srv)) in
            let session :=
              mkSession (BookProcessor.self x) (file_uri session) (mime_type session)
                        (book_title session) in
            let srv :=
              mkServer (<[session_id := session]> (sessions srv))
                       (BookProcessor.files x) (BookProcessor.calls x) in
            match result with
            | inl e => (srv, upload_error e)
            | inr result =>
                match result !! "file_uri" with
                | None => (srv, upload_error (KeyError "file_uri"))
                | Some uri =>
                    let session :=
                      mkSession (book_processor session) (Some uri) (mime_type session)
                                (book_title session) in
                    let srv := mkServer (<[session_id := session]> (sessions srv))
                                        (files srv) (calls srv) in
                    match result !! "mime_type" with
                    | None => (srv, upload_error (KeyError "mime_type"))
                    | Some mime =>
                        let session :=
                          mkSession (book_processor session) (file_uri session) (Some mime)
                                    (book_title session) in
                        let srv := mkServer (<[session_id := session]> (sessions srv))
                                            (files srv) (calls srv) in
                        match result !! "filename" with
                        | None => (srv, upload_error (KeyError "filename"))
                        | Some title =>
                            let session :=
                              mkSession (book_processor session) (file_uri session)
                                        (mime_type session) (Some title) in
                            let srv := mkServer (<[session_id := session]> (sessions srv))
                                                (files srv) (calls srv) in
                            (srv, Return {[ "success" := JBool true;
                                            "filename" := JStr filename;
                                            "file_uri" := JStr uri ]})
                        end
                    end
                end
            end
        end
  end.

Definition clear_book (env : Env) (session_id : string) (srv : Server) : Server * Response :=
  match sessions srv !! session_id with
  | None => (srv, HTTPException 404 "Session not found")
  | Some session =>
      let x := clear env (mkSys (book_processor session) (files srv) (calls srv)) in
      (mkServer (<[session_id := mkSession (BookProcessor.self x) None None None]>
                   (sessions srv))
                (BookProcessor.files x) (BookProcessor.calls x),
       Return {[ "success" := JBool true ]})
  end.

(** A server with one session, which holds a first book. *)
Definition holding_first_session : Server :=
  mkServer {[ "s1" := mkSession (BookProcessor.self holding_first_book)
                                (Some "gemini://files/1") (Some "application/pdf")
                                (Some "first.pdf") ]}
           (BookProcessor.files holding_first_book)
           (BookProcessor.calls holding_first_book).

(** A session and its processor agree on the book. *)
Definition in_step (s : Session) : Prop :=
  file_uri s = get_file_uri (book_processor s) /\
  mime_type s = get_mime_type (book_processor s) /\
  book_title s = get_title (book_processor s).

End Server.

(** * Properties *)

(** ** Forwarding *)

Lemma stt_forwards : forwards_after_notifying STTProgressProcessor.process_frame.
Proof.
  intros f d t s.
  destruct f as [text|text| |text| | | |text| |m|n];
    try (exists []; split; reflexivity).
  - destruct text; eexists [_]; split; reflexivity.
  - destruct text; eexists [_;_;_;_;_]; split; reflexivity.
Qed.

Lemma llm_forwards : forwards_after_notifying LLMProgressProcessor.process_frame.
Proof.
  intros f d t s.
  destruct f as [text|text| |text| | | |text| |m|n];
    try (exists []; split; reflexivity).
  - eexists [_]; split; reflexivity.
  - eexists [_]; split; reflexivity.
  - destruct s as [[|c acc] i]; [eexists [_]|eexists [_;_;_]]; split; reflexivity.
Qed.

Lemma tts_forwards : forwards_after_notifying TTSStatusProcessor.process_frame.
Proof.
  intros f d t s.
  destruct f as [text|text| |text| | | |text| |m|n];
    try (exists []; split; reflexivity).
  - destruct s as [[|]]; [exists []|eexists [_;_]]; split; reflexivity.
  - destruct s as [[|]]; [eexists [_;_]|exists []]; split; reflexivity.
  - destruct s as [[|]]; [eexists [_]|eexists [_;_]]; split; reflexivity.
  - destruct s as [[|]]; [eexists [_;_]|exists []]; split; reflexivity.
Qed.

Lemma emitted_snoc (l : list Pushed) x : emitted (l ++ [x]) = l.
Proof. apply removelast_last. Qed.

Lemma forwarded_snoc (l : list Pushed) x : forwarded (l ++ [x]) = Some x.
Proof. apply last_snoc. Qed.

Lemma is_notification_notify m : is_notification (notify m) = true.
Proof. reflexivity. Qed.

Lemma filter_notify ms :
  List.filter (fun p => negb (is_notification p)) (notify <$> ms) = [].
Proof. induction ms as [|m ms IH]; [reflexivity|exact IH]. Qed.

Lemma run_cons {St} `{FrameProcessor St} clock (s : St) f d rest :
  run clock s ((f, d) :: rest)
  = ((run (fun n => clock (S n))
          (self (process_frame f d (reliable (clock 0%nat)) s)) rest).1,
     pushed (process_frame f d (reliable (clock 0%nat)) s)
       :: (run (fun n => clock (S n))
               (self (process_frame f d (reliable (clock 0%nat)) s)) rest).2).
Proof. reflexivity. Qed.

Lemma run_forwards {St} `{FrameProcessor St} :
  forwards_after_notifying process_frame -> forwards_every_frame St.
Proof.
  intros Hstep clock s inputs. revert clock s.
  induction inputs as [|[f d] rest IH]; intros clock s.
  - repeat split; constructor.
  - rewrite run_cons. cbn [snd] in *.
    destruct (Hstep f d (clock 0%nat) s) as (ms & _ & Hp).
    destruct (IH (fun n => clock (S n))
                 (self (process_frame f d (reliable (clock 0%nat)) s)))
      as (IH1 & IH2 & IH3).
    rewrite Hp. repeat split.
    + rewrite !fmap_cons, forwarded_snoc. f_equal. exact IH1.
    + constructor; [|exact IH2].
      rewrite emitted_snoc. apply Forall_fmap, Forall_true. intros m. reflexivity.
    + cbn [concat]. change ((f, d) :: rest) with ([(f, d)] ++ rest).
      rewrite !List.filter_app, filter_notify, IH3. reflexivity.
Qed.

(** C1. Forwarding invariant: for each of the three processors and every
    input sequence, the frames forwarded are the inputs themselves, same
    frames, same directions, same order, whatever messages the calls
    emitted: each call pushes its messages first and its input last. *)
Theorem forwarding_invariant :
  forwards_every_frame STTProgressProcessor.State /\
  forwards_every_frame LLMProgressProcessor.State /\
  forwards_every_frame TTSStatusProcessor.State.
Proof.
  split; [|split]; apply run_forwards.
  - exact stt_forwards.
  - exact llm_forwards.
  - exact tts_forwards.
Qed.

(** ** String facts used below *)

Lemma string_app_cons (x : Ascii.ascii) (a b : string) :
  String x a +:+ b = String x (a +:+ b).
Proof. reflexivity. Qed.

Lemma string_app_assoc (a b c : string) : (a +:+ b) +:+ c = a +:+ (b +:+ c).
Proof.
  induction a as [|x a IH]; [reflexivity|].
  rewrite !string_app_cons, IH. reflexivity.
Qed.

Lemma string_app_nil_r (a : string) : a +:+ EmptyString = a.
Proof.
  induction a as [|x a IH]; [reflexivity|].
  rewrite string_app_cons, IH. reflexivity.
Qed.

Lemma substring_0_cons (n : nat) (x : Ascii.ascii) (s : string) :
  String.substring 0 (S n) (String x s) = String x (String.substring 0 n s).
Proof. reflexivity. Qed.

(** [s[:n]] when [s] has at most [n] characters. *)
Lemma substring_all (n : nat) (s : string) :
  (String.length s <= n)%nat -> String.substring 0 n s = s.
Proof.
  revert n. induction s as [|x s IH]; intros [|n] Hn;
    try reflexivity; try (exfalso; simpl in Hn; lia).
  rewrite substring_0_cons, IH; [reflexivity|simpl in Hn; lia].
Qed.

(** [s[:n]] has [min n (len s)] characters and [s == s[:n] + s[n:]]. *)
Lemma substring_length (n : nat) (s : string) :
  String.length (String.substring 0 n s) = Nat.min n (String.length s).
Proof.
  revert n. induction s as [|x s IH]; intros [|n]; try reflexivity.
  rewrite substring_0_cons. simpl String.length. rewrite IH. reflexivity.
Qed.

Lemma substring_0_length (s : string) : String.substring 0 (String.length s) s = s.
Proof. apply substring_all. lia. Qed.

Lemma substring_split (n : nat) (s : string) :
  s = String.substring 0 n s +:+ String.substring n (String.length s - n) s.
Proof.
  revert n. induction s as [|x s IH]; intros [|n]; try reflexivity.
  - change (String x s = String.substring 0 (String.length (String x s)) (String x s)).
    symmetry. apply substring_0_length.
  - rewrite substring_0_cons, string_app_cons. f_equal. apply IH.
Qed.

(** ** The transcription observer *)

(** The pushes of a call on a final transcription. *)
Lemma stt_final_pushed (text : string) (d : FrameDirection) (t : Z)
    (s : STTProgressProcessor.State) :
  pushed (STTProgressProcessor.process_frame (TranscriptionFrame text) d (reliable t) s)
  = [ notify (match text with
              | EmptyString => {[ "type" := VStr "status"; "status" := VStr "stt" ]}
              | _ => {[ "type" := VStr "status"; "status" := VStr "stt";
                        "text" := VStr text ]}
              end);
      notify {[ "type" := VStr "log";
                "text" := VStr ("STT: " +:+ dquote +:+ String.substring 0 50 text
                                +:+ (if (50 <? String.length text)%nat
                                     then "..." else EmptyString)
                                +:+ dquote) ]};
      notify {[ "type" := VStr "transcript"; "role" := VStr "user"; "text" := VStr text;
                "final" := VBool true; "timestamp" := VInt t;
                "messageId" := VInt (STTProgressProcessor._user_message_id s + 1) ]};
      notify {[ "type" := VStr "status"; "status" := VStr "llm" ]};
      notify {[ "type" := VStr "log"; "text" := VStr "Sending to LLM..." ]};
      (TranscriptionFrame text, d) ].
Proof. destruct text; reflexivity. Qed.

(** C2. On a final transcription the user message counter grows by one
    and the call pushes five messages, in this order: status stt with the
    text (the text key being present when the text is not empty), the log
    of the text cut at 50 characters, the final user transcript carrying
    the new counter value, status llm, the log Sending to LLM; then the
    frame itself.  The transcript comes before the llm status. *)
Theorem final_transcript_notifications (text : string) (d : FrameDirection) (t : Z)
    (s : STTProgressProcessor.State) :
  let o := STTProgressProcessor.process_frame (TranscriptionFrame text) d (reliable t) s in
  result o = Some tt /\
  STTProgressProcessor._user_message_id (self o)
    = (STTProgressProcessor._user_message_id s + 1)%Z /\
  pushed o =
    [ notify (match text with
              | EmptyString => {[ "type" := VStr "status"; "status" := VStr "stt" ]}
              | _ => {[ "type" := VStr "status"; "status" := VStr "stt";
                        "text" := VStr text ]}
              end);
      notify {[ "type" := VStr "log";
                "text" := VStr ("STT: " +:+ dquote +:+ String.substring 0 50 text
                                +:+ (if (50 <? String.length text)%nat
                                     then "..." else EmptyString)
                                +:+ dquote) ]};
      notify {[ "type" := VStr "transcript"; "role" := VStr "user"; "text" := VStr text;
                "final" := VBool true; "timestamp" := VInt t;
                "messageId" := VInt (STTProgressProcessor._user_message_id s + 1) ]};
      notify {[ "type" := VStr "status"; "status" := VStr "llm" ]};
      notify {[ "type" := VStr "log"; "text" := VStr "Sending to LLM..." ]};
      (TranscriptionFrame text, d) ].
Proof.
  cbv zeta. split; [|split].
  - destruct text; reflexivity.
  - destruct text; reflexivity.
  - apply stt_final_pushed.
Qed.

(** C10. A status message carries the text key only for a non-empty
    text: [_send_status] with an empty text, or with none, pushes one
    message without it, and with a non-empty text one message with it; an
    interim transcription with empty text pushes exactly one message,
    status listening without a text key, before the frame. *)
Theorem status_omits_empty_text :
  (forall (status : string) (text : option string) (t : Z) (s : STTProgressProcessor.State),
     exists m : Message,
       pushed (STTProgressProcessor._send_status status text (reliable t) s) = [notify m] /\
       m !! "type" = Some (VStr "status") /\
       m !! "status" = Some (VStr status) /\
       m !! "text" = match text with
                     | Some (String c r) => Some (VStr (String c r))
                     | _ => None
                     end /\
       dom m = match text with
               | Some (String c r) => {[ "type"; "status"; "text" ]}
               | _ => {[ "type"; "status" ]}
               end) /\
  (forall (d : FrameDirection) (t : Z) (s : STTProgressProcessor.State),
     pushed (STTProgressProcessor.process_frame
               (InterimTranscriptionFrame EmptyString) d (reliable t) s)
     = [ notify {[ "type" := VStr "status"; "status" := VStr "listening" ]};
         (InterimTranscriptionFrame EmptyString, d) ] /\
     ({[ "type" := VStr "status"; "status" := VStr "listening" ]} : Message) !! "text"
       = None).
Proof.
  split.
  - intros status [[|c r]|] t s; eexists; (split; [reflexivity|]);
      repeat split; try reflexivity;
      rewrite ?dom_insert_L, dom_singleton_L; set_solver.
  - intros d t s. split; reflexivity.
Qed.

Lemma tts_speak_pushed (text : string) (d : FrameDirection) (t : Z)
    (s : TTSStatusProcessor.State) :
  pushed (TTSStatusProcessor.process_frame (TTSSpeakFrame text) d (reliable t) s)
  = (if TTSStatusProcessor._is_speaking s then []
     else [notify {[ "type" := VStr "status"; "status" := VStr "tts" ]}])
    ++ [ notify {[ "type" := VStr "log";
                   "text" := VStr ("TTS: " +:+ dquote
                                   +:+ (if (30 <? String.length text)%nat
                                        then String.substring 0 30 text +:+ "..."
                                        else text)
                                   +:+ dquote) ]};
         (TTSSpeakFrame text, d) ].
Proof. destruct s as [[|]]; reflexivity. Qed.

(** C9. Truncation in the logs.  The log of a final transcription quotes
    the text itself when it has at most 50 characters, and its first 50
    characters followed by three dots when it has more; the log of a
    speak frame does the same at 30 characters.  [s[:n]] is a prefix of
    [s] of [min n (len s)] characters. *)
Theorem log_truncation (text : string) (d : FrameDirection) (t : Z)
    (s1 : STTProgressProcessor.State) (s2 : TTSStatusProcessor.State) :
  pushed (STTProgressProcessor.process_frame (TranscriptionFrame text) d (reliable t) s1)
    !! 1%nat
  = Some (notify {[ "type" := VStr "log";
                    "text" := VStr ("STT: " +:+ dquote
                                    +:+ (if decide (50 < String.length text)%nat
                                         then String.substring 0 50 text +:+ "..."
                                         else text)
                                    +:+ dquote) ]}) /\
  pushed (TTSStatusProcessor.process_frame (TTSSpeakFrame text) d (reliable t) s2)
  = (if TTSStatusProcessor._is_speaking s2 then []
     else [notify {[ "type" := VStr "status"; "status" := VStr "tts" ]}])
    ++ [ notify {[ "type" := VStr "log";
                   "text" := VStr ("TTS: " +:+ dquote
                                   +:+ (if decide (30 < String.length text)%nat
                                        then String.substring 0 30 text +:+ "..."
                                        else text)
                                   +:+ dquote) ]};
         (TTSSpeakFrame text, d) ] /\
  (forall n : nat,
     String.length (String.substring 0 n text) = Nat.min n (String.length text) /\
     text = String.substring 0 n text
            +:+ String.substring n (String.length text - n) text).
Proof.
  split; [|split].
  - rewrite stt_final_pushed.
    cbn [lookup list_lookup]. do 5 f_equal.
    destruct (Nat.ltb_spec 50 (String.length text)) as [Hlt|Hle].
    + rewrite decide_True by exact Hlt. now rewrite string_app_assoc.
    + rewrite decide_False by lia. now rewrite substring_all by exact Hle.
  - rewrite tts_speak_pushed.
    destruct (Nat.ltb_spec 30 (String.length text)) as [Hlt|Hle].
    + rewrite decide_True by exact Hlt. reflexivity.
    + rewrite decide_False by lia. reflexivity.
  - intros n. split; [apply substring_length|apply substring_split].
Qed.

Example truncation_of_80_characters :
  pushed (STTProgressProcessor.process_frame
            (TranscriptionFrame
               "0123456789abcdefghijklmnopqrstuvwxyzABCDEFGHIJKLMN0123456789abcdefghijklmnopqrst")
            DOWNSTREAM (reliable 0) STTProgressProcessor.__init__) !! 1%nat
  = Some (notify {[ "type" := VStr "log";
                    "text" := VStr ("STT: " +:+ dquote
                      +:+ "0123456789abcdefghijklmnopqrstuvwxyzABCDEFGHIJKLMN..."
                      +:+ dquote) ]}).
Proof. reflexivity. Qed.

Example truncation_of_40_characters :
  pushed (TTSStatusProcessor.process_frame
            (TTSSpeakFrame "0123456789abcdefghijklmnopqrstuvwxyzABCD")
            DOWNSTREAM (reliable 0) (TTSStatusProcessor.mkState true))
  = [ notify {[ "type" := VStr "log";
                "text" := VStr ("TTS: " +:+ dquote
                                +:+ "0123456789abcdefghijklmnopqrst..." +:+ dquote) ]};
      (TTSSpeakFrame "0123456789abcdefghijklmnopqrstuvwxyzABCD", DOWNSTREAM) ].
Proof. reflexivity. Qed.

(** ** The speech-status observer *)

(** C3. The transition table of the speaking flag.  Not speaking: a
    started frame pushes status tts and the log TTS speaking and sets the
    flag; a speak frame pushes status tts and the log of the text cut at
    30 characters and sets the flag; a stopped frame or an interruption
    pushes nothing and leaves the flag.  Speaking: a speak frame pushes
    only its log; a stopped frame pushes status idle and Ready and clears
    the flag; an interruption pushes status idle and Interrupted by user
    and clears the flag; a started frame pushes nothing.  Every call ends
    with the frame itself.  An interruption while speaking followed by a
    stopped frame yields one idle status: the second call pushes only its
    frame. *)
Theorem speaking_flag_transitions (d d' : FrameDirection) (t : Z) (clock : nat -> Z)
    (text : string) :
  let idle := TTSStatusProcessor.mkState false in
  let speaking := TTSStatusProcessor.mkState true in
  let step f s := TTSStatusProcessor.process_frame f d (reliable t) s in
  let preview :=
    notify {[ "type" := VStr "log";
              "text" := VStr ("TTS: " +:+ dquote
                              +:+ (if (30 <? String.length text)%nat
                                   then String.substring 0 30 text +:+ "..."
                                   else text)
                              +:+ dquote) ]} in
  let status_tts := notify {[ "type" := VStr "status"; "status" := VStr "tts" ]} in
  let status_idle := notify {[ "type" := VStr "status"; "status" := VStr "idle" ]} in
  let log txt := notify {[ "type" := VStr "log"; "text" := VStr txt ]} in
  (self (step TTSStartedFrame idle) = speaking /\
   pushed (step TTSStartedFrame idle)
   = [status_tts; log "TTS speaking..."; (TTSStartedFrame, d)]) /\
  (self (step (TTSSpeakFrame text) idle) = speaking /\
   pushed (step (TTSSpeakFrame text) idle)
   = [status_tts; preview; (TTSSpeakFrame text, d)]) /\
  (self (step (TTSSpeakFrame text) speaking) = speaking /\
   pushed (step (TTSSpeakFrame text) speaking) = [preview; (TTSSpeakFrame text, d)]) /\
  (self (step TTSStoppedFrame speaking) = idle /\
   pushed (step TTSStoppedFrame speaking)
   = [status_idle; log "Ready"; (TTSStoppedFrame, d)]) /\
  (self (step StartInterruptionFrame speaking) = idle /\
   pushed (step StartInterruptionFrame speaking)
   = [status_idle; log "Interrupted by user"; (StartInterruptionFrame, d)]) /\
  (self (step TTSStoppedFrame idle) = idle /\
   pushed (step TTSStoppedFrame idle) = [(TTSStoppedFrame, d)]) /\
  (self (step StartInterruptionFrame idle) = idle /\
   pushed (step StartInterruptionFrame idle) = [(StartInterruptionFrame, d)]) /\
  (self (step TTSStartedFrame speaking) = speaking /\
   pushed (step TTSStartedFrame speaking) = [(TTSStartedFrame, d)]) /\
  run clock speaking [(StartInterruptionFrame, d); (TTSStoppedFrame, d')]
  = (idle, [ [status_idle; log "Interrupted by user"; (StartInterruptionFrame, d)];
             [(TTSStoppedFrame, d')] ]).
Proof.
  cbv zeta. repeat split; reflexivity.
Qed.

(** ** The response observer *)

(** A response start empties the accumulated text, adds
    one to the assistant message counter and pushes the log LLM streaming
    response, then the frame. *)
Lemma llm_start_step (d : FrameDirection) (t : Z) (s : LLMProgressProcessor.State) :
  let o := LLMProgressProcessor.process_frame LLMFullResponseStartFrame d (reliable t) s in
  result o = Some tt /\
  self o = LLMProgressProcessor.mkState EmptyString
             (LLMProgressProcessor._assistant_message_id s + 1) /\
  pushed o = [log_message "LLM streaming response..."; (LLMFullResponseStartFrame, d)].
Proof. repeat split; reflexivity. Qed.

(** A text chunk is appended to the accumulated text, and the transcript
    pushed carries the whole of it. *)
Lemma llm_text_step (text : string) (d : FrameDirection) (t : Z)
    (s : LLMProgressProcessor.State) :
  let o := LLMProgressProcessor.process_frame (LLMTextFrame text) d (reliable t) s in
  result o = Some tt /\
  self o = LLMProgressProcessor.mkState
             (LLMProgressProcessor._assistant_text s +:+ text)
             (LLMProgressProcessor._assistant_message_id s) /\
  pushed o = [ assistant_transcript (LLMProgressProcessor._assistant_text s +:+ text)
                 false t (LLMProgressProcessor._assistant_message_id s);
               (LLMTextFrame text, d) ].
Proof. repeat split; reflexivity. Qed.

(** C6. A response end with accumulated text pushes the final transcript
    of that text under the current counter, the log of its length, and
    empties the text; with no accumulated text it pushes neither.  In
    both cases it then pushes the log Sending to TTS, and the frame. *)
Theorem response_end_notifications (d : FrameDirection) (t : Z)
    (s : LLMProgressProcessor.State) :
  let o := LLMProgressProcessor.process_frame LLMFullResponseEndFrame d (reliable t) s in
  let acc := LLMProgressProcessor._assistant_text s in
  let i := LLMProgressProcessor._assistant_message_id s in
  result o = Some tt /\
  self o = LLMProgressProcessor.mkState EmptyString i /\
  pushed o =
    match acc with
    | EmptyString => []
    | _ => [ assistant_transcript acc true t i;
             log_message ("LLM complete: " +:+ str_of_len (String.length acc) +:+ " chars") ]
    end ++ [log_message "Sending to TTS..."; (LLMFullResponseEndFrame, d)].
Proof. destruct s as [[|c acc] i]; repeat split; reflexivity. Qed.

Lemma run_app {St} `{FrameProcessor St} (l1 l2 : list Pushed) :
  forall clock (s : St),
    run clock s (l1 ++ l2)
    = ((run (fun n => clock (length l1 + n)%nat) (run clock s l1).1 l2).1,
       (run clock s l1).2
         ++ (run (fun n => clock (length l1 + n)%nat) (run clock s l1).1 l2).2).
Proof.
  induction l1 as [|[f d] l1 IH]; intros clock s.
  - cbn [app run fst snd length]. now destruct (run _ s l2).
  - cbn [app]. rewrite !run_cons, IH. reflexivity.
Qed.

(** After any accumulated text [acc], the k-th chunk of a run of text
    chunks pushes [acc] followed by all the chunks up to it. *)
Lemma llm_run_chunks (cs : list (string * FrameDirection)) :
  forall clock (s : LLMProgressProcessor.State),
    run clock s (text_frames cs)
    = (LLMProgressProcessor.mkState
         (LLMProgressProcessor._assistant_text s +:+ foldr String.append EmptyString cs.*1)
         (LLMProgressProcessor._assistant_message_id s),
       imap (fun k c =>
               [ assistant_transcript
                   (LLMProgressProcessor._assistant_text s
                    +:+ foldr String.append EmptyString (take (S k) cs.*1))
                   false (clock k) (LLMProgressProcessor._assistant_message_id s);
                 (LLMTextFrame c.1, c.2) ]) cs).
Proof.
  induction cs as [|[c d] cs IH]; intros clock [acc i].
  - cbn. now rewrite string_app_nil_r.
  - change (text_frames ((c, d) :: cs)) with ((LLMTextFrame c, d) :: text_frames cs).
    rewrite run_cons. cbn [process_frame llm_progress].
    destruct (llm_text_step c d (clock 0%nat) (LLMProgressProcessor.mkState acc i))
      as (_ & -> & ->).
    rewrite IH. cbn [fst snd LLMProgressProcessor._assistant_text
                     LLMProgressProcessor._assistant_message_id].
    rewrite fmap_cons. cbn [foldr fst]. rewrite string_app_assoc. f_equal.
    rewrite imap_cons. cbn [take foldr fst snd]. rewrite string_app_nil_r. f_equal.
    apply imap_ext. intros k [c' d'] _. cbn [compose take foldr fst snd].
    now rewrite string_app_assoc.
Qed.

(** C4. The stream start, chunk A, chunk B, end: the calls push the
    transcripts A and AB, not final, then AB, final, all three under the
    one message id the start assigned, and the last message of the run is
    the log Sending to TTS.  Every text chunk pushes the whole text
    accumulated so far, the chunk included: in a run of chunks after a
    start, the k-th transcript carries the concatenation of the first k
    chunks. *)
Theorem response_stream_snapshots :
  (forall clock (s : LLMProgressProcessor.State) d0 d1 d2 d3,
     let i := (LLMProgressProcessor._assistant_message_id s + 1)%Z in
     run clock s [ (LLMFullResponseStartFrame, d0); (LLMTextFrame "A", d1);
                   (LLMTextFrame "B", d2); (LLMFullResponseEndFrame, d3) ]
     = (LLMProgressProcessor.mkState EmptyString i,
        [ [log_message "LLM streaming response..."; (LLMFullResponseStartFrame, d0)];
          [assistant_transcript "A" false (clock 1%nat) i; (LLMTextFrame "A", d1)];
          [assistant_transcript "AB" false (clock 2%nat) i; (LLMTextFrame "B", d2)];
          [assistant_transcript "AB" true (clock 3%nat) i;
           log_message "LLM complete: 2 chars";
           log_message "Sending to TTS...";
           (LLMFullResponseEndFrame, d3)] ])) /\
  (forall (text : string) d t (s : LLMProgressProcessor.State),
     let o := LLMProgressProcessor.process_frame (LLMTextFrame text) d (reliable t) s in
     self o = LLMProgressProcessor.mkState
                (LLMProgressProcessor._assistant_text s +:+ text)
                (LLMProgressProcessor._assistant_message_id s) /\
     pushed o = [ assistant_transcript (LLMProgressProcessor._assistant_text s +:+ text)
                    false t (LLMProgressProcessor._assistant_message_id s);
                  (LLMTextFrame text, d) ]) /\
  (forall clock (s : LLMProgressProcessor.State) d0 (cs : list (string * FrameDirection)),
     (run clock s ((LLMFullResponseStartFrame, d0) :: text_frames cs)).2
     = [log_message "LLM streaming response..."; (LLMFullResponseStartFrame, d0)]
       :: imap (fun k c =>
                  [ assistant_transcript
                      (foldr String.append EmptyString (take (S k) cs.*1))
                      false (clock (S k))
                      (LLMProgressProcessor._assistant_message_id s + 1);
                    (LLMTextFrame c.1, c.2) ]) cs).
Proof.
  split; [|split].
  - intros. reflexivity.
  - intros text d t s. split; apply llm_text_step.
  - intros clock s d0 cs. rewrite run_cons. cbn [process_frame llm_progress snd].
    destruct (llm_start_step d0 (clock 0%nat) s) as (_ & -> & ->).
    rewrite llm_run_chunks. reflexivity.
Qed.

(** A start then a chunk, from any fields. *)
Lemma llm_run_restart clock (s : LLMProgressProcessor.State) d1 c d2 :
  run clock s [(LLMFullResponseStartFrame, d1); (LLMTextFrame c, d2)]
  = (LLMProgressProcessor.mkState c (LLMProgressProcessor._assistant_message_id s + 1),
     [ [log_message "LLM streaming response..."; (LLMFullResponseStartFrame, d1)];
       [ assistant_transcript c false (clock 1%nat)
           (LLMProgressProcessor._assistant_message_id s + 1);
         (LLMTextFrame c, d2) ] ]).
Proof. reflexivity. Qed.

(** C5. A response start empties the accumulated text, adds one to the
    assistant message counter and pushes the log LLM streaming response.
    Hence, when a second start follows a start and its chunks with no end
    in between, the text of the first turn is dropped: the first chunk
    after the second start pushes that chunk alone, under a new id. *)
Theorem response_start_resets :
  (forall d t (s : LLMProgressProcessor.State),
     let o := LLMProgressProcessor.process_frame LLMFullResponseStartFrame d (reliable t) s in
     result o = Some tt /\
     self o = LLMProgressProcessor.mkState EmptyString
                (LLMProgressProcessor._assistant_message_id s + 1) /\
     pushed o = [log_message "LLM streaming response..."; (LLMFullResponseStartFrame, d)]) /\
  (forall clock (s : LLMProgressProcessor.State) d0 cs d1 c d2,
     let r := run clock s ((LLMFullResponseStartFrame, d0) :: text_frames cs
                           ++ [(LLMFullResponseStartFrame, d1); (LLMTextFrame c, d2)]) in
     r.1 = LLMProgressProcessor.mkState c (LLMProgressProcessor._assistant_message_id s + 2) /\
     last r.2
     = Some [ assistant_transcript c false (clock (S (length cs + 1)))
                (LLMProgressProcessor._assistant_message_id s + 2);
              (LLMTextFrame c, d2) ]).
Proof.
  split.
  - intros d t s. apply llm_start_step.
  - intros clock s d0 cs d1 c d2. cbv zeta.
    rewrite run_cons. cbn [process_frame llm_progress fst snd].
    destruct (llm_start_step d0 (clock 0%nat) s) as (_ & -> & _).
    rewrite run_app, llm_run_chunks, llm_run_restart. cbn [fst snd].
    unfold text_frames. rewrite length_fmap.
    cbn [LLMProgressProcessor._assistant_message_id].
    replace (LLMProgressProcessor._assistant_message_id s + 1 + 1)%Z
      with (LLMProgressProcessor._assistant_message_id s + 2)%Z by lia.
    split; [reflexivity|].
    rewrite last_cons, last_app. reflexivity.
Qed.

(** ** Message identifiers *)

Lemma notifications_cons (tr : list Pushed) (trs : list (list Pushed)) :
  notifications (tr :: trs) = omap message_of (emitted tr) ++ notifications trs.
Proof. unfold notifications. rewrite fmap_cons. cbn [concat]. apply omap_app. Qed.










(** ** A push that raises *)


















(** * Further properties *)

(** ** The observers *)

(** X1. Interim transcriptions only report: over any run of them the
    fields stay as they were, and each call pushes one status listening
    message (with the text when it is not empty) and then its frame. *)
Theorem interim_transcripts_only_report (ts : list (string * FrameDirection)) :
  forall clock (s : STTProgressProcessor.State),
    run clock s (interim_frames ts)
    = (s, (fun c => [ notify (match c.1 with
                              | EmptyString =>
                                  {[ "type" := VStr "status"; "status" := VStr "listening" ]}
                              | _ => {[ "type" := VStr "status"; "status" := VStr "listening";
                                        "text" := VStr c.1 ]}
                              end);
                      (InterimTranscriptionFrame c.1, c.2) ]) <$> ts).
Proof.
  induction ts as [|[text d] ts IH]; intros clock s; [reflexivity|].
  change (interim_frames ((text, d) :: ts))
    with ((InterimTranscriptionFrame text, d) :: interim_frames ts).
  rewrite run_cons. cbn [process_frame stt_progress].
  assert (Hs : self (STTProgressProcessor.process_frame (InterimTranscriptionFrame text) d
                       (reliable (clock 0%nat)) s) = s) by (destruct text; reflexivity).
  rewrite Hs, IH. cbn [fst snd]. rewrite fmap_cons.
  destruct text; reflexivity.
Qed.



Lemma tts_call_statuses (f : Frame) (d : FrameDirection) (t : Z) (b : bool) :
  let o := TTSStatusProcessor.process_frame f d (reliable t) (TTSStatusProcessor.mkState b) in
  statuses (omap message_of (emitted (pushed o)))
  = (if tts_toggles f b then [VStr (if b then "idle" else "tts")] else []) /\
  self o = TTSStatusProcessor.mkState (if tts_toggles f b then negb b else b).
Proof.
  destruct f, b; split; reflexivity.
Qed.

Lemma statuses_app (l1 l2 : list Message) : statuses (l1 ++ l2) = statuses l1 ++ statuses l2.
Proof. apply omap_app. Qed.

Lemma alternate_length b n : length (alternate b n) = n.
Proof. revert b. induction n as [|n IH]; intros b; cbn; [reflexivity|]. now rewrite IH. Qed.

(** X3. Over any run of the speech-status processor the statuses it
    emits alternate, idle first when it was speaking and tts first when
    not; the flag afterwards is the initial one flipped once per status. *)
Theorem speech_statuses_alternate (inputs : list Pushed) :
  forall clock (s : TTSStatusProcessor.State),
    let r := run clock s inputs in
    let sts := statuses (notifications r.2) in
    sts = alternate (TTSStatusProcessor._is_speaking s) (length sts) /\
    TTSStatusProcessor._is_speaking r.1
    = xorb (TTSStatusProcessor._is_speaking s) (Nat.odd (length sts)).
Proof.
  induction inputs as [|[f d] rest IH]; intros clock [b].
  - cbn. split; [reflexivity|]. now destruct b.
  - cbv zeta. rewrite run_cons. cbn [process_frame tts_status fst snd].
    destruct (tts_call_statuses f d (clock 0%nat) b) as [Hst Hs].
    rewrite notifications_cons, statuses_app, Hst, Hs.
    specialize (IH (fun n => clock (S n))
                   (TTSStatusProcessor.mkState (if tts_toggles f b then negb b else b))).
    cbv zeta in IH. destruct IH as [IH1 IH2].
    cbn [TTSStatusProcessor._is_speaking] in *.
    set (rest_sts := statuses (notifications (run _ _ rest).2)) in *.
    destruct (tts_toggles f b).
    + cbn [app length alternate]. split; [f_equal; exact IH1|].
      rewrite IH2, Nat.odd_succ, <- Nat.negb_odd. now destruct b, (Nat.odd (length rest_sts)).
    + cbn [app]. split; assumption.
Qed.

Lemma llm_end_step (d : FrameDirection) (t : Z) (s : LLMProgressProcessor.State) :
  let o := LLMProgressProcessor.process_frame LLMFullResponseEndFrame d (reliable t) s in
  let acc := LLMProgressProcessor._assistant_text s in
  let i := LLMProgressProcessor._assistant_message_id s in
  self o = LLMProgressProcessor.mkState EmptyString i /\
  pushed o =
    match acc with
    | EmptyString => []
    | _ => [ assistant_transcript acc true t i;
             log_message ("LLM complete: " +:+ str_of_len (String.length acc) +:+ " chars") ]
    end ++ [log_message "Sending to TTS..."; (LLMFullResponseEndFrame, d)].
Proof. destruct s as [[|c acc] i]; split; reflexivity. Qed.

(** X4. A whole turn: after a start, any chunks and an end, the fields
    are empty text and the new id; the end pushes the final transcript of
    the concatenation of the chunks and the log of its length when that
    text is not empty, and neither when it is; then the log Sending to
    TTS and the frame. *)
Theorem response_turn_final_text (clock : nat -> Z) (s : LLMProgressProcessor.State)
    (d0 d1 : FrameDirection) (cs : list (string * FrameDirection)) :
  let r := run clock s ((LLMFullResponseStartFrame, d0) :: text_frames cs
                        ++ [(LLMFullResponseEndFrame, d1)]) in
  let whole := foldr String.append EmptyString cs.*1 in
  let i := (LLMProgressProcessor._assistant_message_id s + 1)%Z in
  r.1 = LLMProgressProcessor.mkState EmptyString i /\
  last r.2
  = Some (match whole with
          | EmptyString => []
          | _ => [ assistant_transcript whole true (clock (S (length cs))) i;
                   log_message ("LLM complete: " +:+ str_of_len (String.length whole)
                                +:+ " chars") ]
          end ++ [log_message "Sending to TTS..."; (LLMFullResponseEndFrame, d1)]).
Proof.
  cbv zeta. rewrite run_cons. cbn [process_frame llm_progress fst snd].
  destruct (llm_start_step d0 (clock 0%nat) s) as (_ & -> & _).
  rewrite run_app, llm_run_chunks. cbn [fst snd].
  unfold text_frames at 1 2. rewrite length_fmap.
  cbn [LLMProgressProcessor._assistant_text LLMProgressProcessor._assistant_message_id].
  change (EmptyString +:+ ?x) with x.
  rewrite run_cons. cbn [process_frame llm_progress fst snd run].
  match goal with
  | |- context [LLMProgressProcessor.process_frame LLMFullResponseEndFrame ?d ?e ?st] =>
      destruct (llm_end_step d (clock (S (length cs + 0))) st) as [Hs Hp]
  end.
  rewrite Hs, Hp. clear Hs Hp.
  cbn [LLMProgressProcessor._assistant_text LLMProgressProcessor._assistant_message_id].
  split; [reflexivity|].
  rewrite last_cons, last_app. cbn [last].
  replace (length cs + 0)%nat with (length cs) by lia. reflexivity.
Qed.

Lemma run_notifications_Forall {St} `{FrameProcessor St} (P : Message -> Prop) :
  (forall f d t (s : St),
      Forall P (omap message_of (emitted (pushed (process_frame f d (reliable t) s))))) ->
  forall inputs clock (s : St), Forall P (notifications (run clock s inputs).2).
Proof.
  intros Hcall inputs. induction inputs as [|[f d] rest IH]; intros clock s.
  - constructor.
  - rewrite run_cons. cbn [snd]. rewrite notifications_cons.
    apply Forall_app. split; [apply Hcall|apply IH].
Qed.

(** X5. No final assistant transcript carries an empty text, over any
    run from any fields. *)
Theorem final_assistant_transcripts_not_empty (clock : nat -> Z)
    (s : LLMProgressProcessor.State) (inputs : list Pushed) :
  Forall (fun m => final_assistant_text m <> Some (VStr EmptyString))
         (notifications (run clock s inputs).2).
Proof.
  apply run_notifications_Forall. clear. intros f d t s.
  cbn [process_frame llm_progress].
  destruct f, s as [[|c acc] i];
    repeat (constructor; [discriminate|]); constructor.
Qed.

Lemma keeps_ret {St A} (a : A) : keeps_self (mret a : M St A).
Proof. intros e s. reflexivity. Qed.

Lemma keeps_get {St} : keeps_self (@get St).
Proof. intros e s. reflexivity. Qed.

Lemma keeps_now {St} : keeps_self (@now St).
Proof. intros e s. reflexivity. Qed.

Lemma keeps_push {St} f d : keeps_self (@push_frame St f d).
Proof. intros e s. unfold push_frame. now destruct (sink e (f, d)). Qed.

Lemma keeps_bind {St A B} (m : M St A) (k : A -> M St B) :
  keeps_self m -> (forall a, keeps_self (k a)) -> keeps_self (m ≫= k).
Proof.
  intros Hm Hk e s. unfold mbind, M_bind. cbv zeta.
  destruct (result (m e s)) as [a|]; cbn [self]; [|apply Hm].
  rewrite Hk. apply Hm.
Qed.

Lemma self_bind_keeps {St A B} (m : M St A) (k : A -> M St B) e s :
  (forall a, keeps_self (k a)) -> self ((m ≫= k) e s) = self (m e s).
Proof.
  intros Hk. unfold mbind, M_bind. cbv zeta.
  destruct (result (m e s)) as [a|]; cbn [self]; [apply Hk|reflexivity].
Qed.

Lemma self_ret_bind {St A B} (a : A) (k : A -> M St B) e s :
  self ((mret a ≫= k) e s) = self (k a e s).
Proof. reflexivity. Qed.

Lemma self_get_bind {St B} (k : St -> M St B) e s :
  self ((get ≫= k) e s) = self (k s e s).
Proof. reflexivity. Qed.

Lemma self_put_bind {St B} (s' : St) (k : unit -> M St B) e s :
  self ((put s' ≫= k) e s) = self (k tt e s').
Proof. reflexivity. Qed.

Lemma self_set_text_bind {B} v (k : unit -> M LLMProgressProcessor.State B) e s :
  self ((LLMProgressProcessor.set_assistant_text v ≫= k) e s)
  = self (k tt e (LLMProgressProcessor.mkState v
                    (LLMProgressProcessor._assistant_message_id s))).
Proof. reflexivity. Qed.

Lemma self_set_id_bind {B} v (k : unit -> M LLMProgressProcessor.State B) e s :
  self ((LLMProgressProcessor.set_assistant_message_id v ≫= k) e s)
  = self (k tt e (LLMProgressProcessor.mkState
                    (LLMProgressProcessor._assistant_text s) v)).
Proof. reflexivity. Qed.

Ltac keeps :=
  repeat first
    [ apply keeps_bind
    | apply keeps_ret
    | apply keeps_get
    | apply keeps_now
    | apply keeps_push
    | match goal with
      | |- forall _, keeps_self _ => intro
      | |- keeps_self ((fun _ => _) _) => cbv beta
      | |- keeps_self (match ?x with _ => _ end) => destruct x
      | |- keeps_self (let _ := _ in _) => cbv zeta
      end ].

(** X6. Fields are updated before anything is pushed, so the update
    stays when a push raises: a final transcription adds one to the user
    counter, a response start empties the text and adds one to the
    assistant counter, a text chunk is appended, and the speaking flag
    flips as in the table, whatever the sink refuses. *)
Theorem fields_updated_before_emission (e : Env) (d : FrameDirection) :
  (forall text s,
     STTProgressProcessor._user_message_id
       (self (STTProgressProcessor.process_frame (TranscriptionFrame text) d e s))
     = (STTProgressProcessor._user_message_id s + 1)%Z) /\
  (forall s,
     self (LLMProgressProcessor.process_frame LLMFullResponseStartFrame d e s)
     = LLMProgressProcessor.mkState EmptyString
         (LLMProgressProcessor._assistant_message_id s + 1)) /\
  (forall text s,
     self (LLMProgressProcessor.process_frame (LLMTextFrame text) d e s)
     = LLMProgressProcessor.mkState (LLMProgressProcessor._assistant_text s +:+ text)
         (LLMProgressProcessor._assistant_message_id s)) /\
  (forall f b,
     self (TTSStatusProcessor.process_frame f d e (TTSStatusProcessor.mkState b))
     = TTSStatusProcessor.mkState (if tts_toggles f b then negb b else b)).
Proof.
  repeat split.
  - intros text s. unfold STTProgressProcessor.process_frame, super_process_frame.
    rewrite self_ret_bind, self_bind_keeps by (intro; apply keeps_push).
    rewrite self_get_bind, self_put_bind.
    unfold STTProgressProcessor._send_status, STTProgressProcessor._send_log,
      STTProgressProcessor._send_transcript.
    match goal with |- context [self (?m e ?st)] =>
      assert (Hk : keeps_self m) by keeps; rewrite Hk end.
    reflexivity.
  - intros s. unfold LLMProgressProcessor.process_frame, super_process_frame.
    rewrite self_ret_bind, self_bind_keeps by (intro; apply keeps_push).
    rewrite self_set_text_bind, self_get_bind, self_set_id_bind.
    unfold LLMProgressProcessor._send_log. apply keeps_push.
  - intros text s. unfold LLMProgressProcessor.process_frame, super_process_frame.
    rewrite self_ret_bind, self_bind_keeps by (intro; apply keeps_push).
    rewrite self_get_bind, self_set_text_bind, self_get_bind.
    unfold LLMProgressProcessor._send_transcript.
    match goal with |- context [self (?m e ?st)] =>
      assert (Hk : keeps_self m) by keeps; rewrite Hk end.
    reflexivity.
  - intros f b. unfold TTSStatusProcessor.process_frame, super_process_frame.
    rewrite self_ret_bind, self_bind_keeps by (intro; apply keeps_push).
    destruct f; try reflexivity; rewrite ?self_get_bind;
      try rewrite self_bind_keeps by (intro; apply keeps_push);
      destruct b; cbn [TTSStatusProcessor._is_speaking negb tts_toggles];
      try reflexivity;
      rewrite self_put_bind;
      (match goal with |- context [self (?m e ?st)] =>
         let Hk := fresh in assert (Hk : keeps_self m) by keeps; rewrite Hk end);
      reflexivity.
Qed.

(** X7. The two [_send_transcript] methods push the same single message;
    it holds the text, the final flag and the clock reading, and reading
    its message id back gives the id passed, the key being absent when
    none was. *)
Theorem transcript_message_fields (role text : string) (final : bool)
    (message_id : option Z) (t : Z)
    (s1 : STTProgressProcessor.State) (s2 : LLMProgressProcessor.State) :
  exists m : Message,
    pushed (STTProgressProcessor._send_transcript role text final message_id (reliable t) s1)
      = [notify m] /\
    pushed (LLMProgressProcessor._send_transcript role text final message_id (reliable t) s2)
      = [notify m] /\
    transcript_id role m = message_id /\
    m !! "text" = Some (VStr text) /\
    m !! "final" = Some (VBool final) /\
    m !! "timestamp" = Some (VInt t) /\
    dom m = {[ "type"; "role"; "text"; "final"; "timestamp" ]}
            ∪ (match message_id with Some _ => {[ "messageId" ]} | None => ∅ end).
Proof.
  destruct message_id as [i|]; eexists; (split; [reflexivity|]); (split; [reflexivity|]);
    (split; [unfold transcript_id; rewrite decide_True by (split; reflexivity); reflexivity|]);
    repeat split; try reflexivity;
    rewrite ?dom_insert_L, dom_singleton_L; set_solver.
Qed.

Lemma string_app_length (a b : string) :
  String.length (a +:+ b) = (String.length a + String.length b)%nat.
Proof.
  induction a as [|x a IH]; [reflexivity|].
  rewrite string_app_cons. cbn [String.length]. now rewrite IH.
Qed.

Lemma dquote_length : String.length dquote = 1%nat.
Proof. reflexivity. Qed.

(** X8. The logs are bounded: the log of a final transcription has 7
    characters around at most 53 of text, 60 at most; the log of a speak
    frame has at most 40. *)
Theorem log_lengths_bounded (text : string) (d : FrameDirection) (t : Z)
    (s1 : STTProgressProcessor.State) (s2 : TTSStatusProcessor.State) :
  (exists l : string,
     pushed (STTProgressProcessor.process_frame (TranscriptionFrame text) d (reliable t) s1)
       !! 1%nat = Some (log_message l) /\
     String.length l = (7 + Nat.min 50 (String.length text)
                        + (if (50 <? String.length text)%nat then 3 else 0))%nat /\
     (String.length l <= 60)%nat) /\
  (exists l : string,
     last (emitted (pushed (TTSStatusProcessor.process_frame (TTSSpeakFrame text) d
                              (reliable t) s2)))
       = Some (log_message l) /\
     (String.length l <= 40)%nat).
Proof.
  split.
  - rewrite stt_final_pushed. eexists. split; [reflexivity|].
    rewrite !string_app_length, substring_length, dquote_length.
    destruct (50 <? String.length text)%nat; cbn [String.length]; lia.
  - rewrite tts_speak_pushed. eexists. split.
    + destruct (TTSStatusProcessor._is_speaking s2); reflexivity.
    + rewrite !string_app_length, dquote_length.
      destruct (Nat.ltb_spec 30 (String.length text)) as [Hlt|Hle].
      * rewrite string_app_length, substring_length. cbn [String.length]. lia.
      * cbn [String.length]. lia.
Qed.

(** ** Web search *)

Section WebSearchProperties.
Import WebSearcher.

Lemma client_twice (w : World) (s : State) key :
  (client w s).2 = Some key -> client w (client w s).1 = ((client w s).1, Some key).
Proof.
  destruct s as [k [c|]]; unfold client; cbn.
  - intros [= ->]. reflexivity.
  - destruct (exa_installed w); [|discriminate].
    destruct k as [[|a k]|]; try discriminate. intros [= <-]. reflexivity.
Qed.

Lemma format_entries_results (rs : list ExaResult) :
  forall i,
    format_entries i
      ((fun result =>
          {[ "title" := title result;
             "url" := url result;
             "text" := AStr match text result with
                            | Some (String c t) => String.substring 0 500 (String c t)
                            | _ => EmptyString
                            end ]} : gmap string Any) <$> rs)
    = Ok (imap (fun k r => entry_of (i + k) r) rs).
Proof.
  induction rs as [|r rs IH]; intros i; [reflexivity|].
  rewrite fmap_cons. cbn [format_entries].
  assert (He : forall d, format_entry i
                 {[ "title" := title r; "url" := url r; "text" := AStr d ]}
               = Ok (str_of_nat i +:+ ". " +:+ py_str (title r) +:+ nl
                     +:+ "   URL: " +:+ py_str (url r) +:+ nl +:+ "   " +:+ d))
    by reflexivity.
  rewrite He, IH, imap_cons. unfold entry_of at 1.
  rewrite Nat.add_0_r. do 2 f_equal.
  apply imap_ext. intros k x _. unfold compose.
  replace (i + S k)%nat with (S i + k)%nat by lia. reflexivity.
Qed.

Lemma search_format_eq (w : World) (s : State) (query : string) (num_results : Z) :
  format_results_for_llm (search w s query num_results).2
  = match (client w s).2 with
    | None => Ok "Search error: Web search is not configured"
    | Some key =>
        match search_and_contents w key query num_results with
        | inl e => Ok ("Search error: " +:+ e)
        | inr [] => Ok "No results found."
        | inr rs => Ok (String.concat (nl +:+ nl) (imap (fun k r => entry_of (S k) r) rs))
        end
    end.
Proof.
  unfold search.
  destruct (client w s) as [s1 c] eqn:Hc. cbn [snd].
  destruct c as [key|]; [|reflexivity].
  pose proof (client_twice w s key) as Htw. rewrite Hc in Htw. cbn [fst snd] in Htw.
  rewrite (Htw eq_refl).
  destruct (search_and_contents w key query num_results) as [e|rs]; [reflexivity|].
  cbn [snd]. destruct rs as [|r rs]; [reflexivity|].
  unfold format_results_for_llm. rewrite format_entries_results.
  rewrite fmap_cons. reflexivity.
Qed.

(** X9. Formatting what [search] returns never raises: it gives the
    not-configured error when there is no client, the error of the
    service when it raises, No results found for no result, and else
    the numbered entries, each with its title, URL and text cut at 500
    characters, separated by blank lines. *)
Theorem search_then_format (w : World) (s : State) (query : string) (num_results : Z) :
  format_results_for_llm (search w s query num_results).2
  = match (client w s).2 with
    | None => Ok "Search error: Web search is not configured"
    | Some key =>
        match search_and_contents w key query num_results with
        | inl e => Ok ("Search error: " +:+ e)
        | inr [] => Ok "No results found."
        | inr rs => Ok (String.concat (nl +:+ nl) (imap (fun k r => entry_of (S k) r) rs))
        end
    end.
Proof. exact (search_format_eq w s query num_results). Qed.

(** X10. The [search_web] tool always has a text for the callback; with
    no searcher yet and Exa missing or [EXA_API_KEY] unset or empty, that
    text is the not-configured error. *)
Theorem search_web_always_answers (w : World) (web_searcher : option State)
    (arguments : gmap string string) :
  (exists out, (search_web w web_searcher arguments).2 = Ok out) /\
  (web_searcher = None ->
   (exa_installed w = false \/ getenv_EXA_API_KEY w = None
    \/ getenv_EXA_API_KEY w = Some EmptyString) ->
   (search_web w web_searcher arguments).2
   = Ok "Search error: Web search is not configured").
Proof.
  unfold search_web.
  set (q := default EmptyString (arguments !! "query")).
  set (s := match web_searcher with None => __init__ w None | Some s => s end).
  pose proof (search_format_eq w s q 3) as H.
  destruct (search w s q 3) as [s' rs]. cbn [snd] in *. split.
  - rewrite H. destruct (client w s).2 as [key|]; [|eauto].
    destruct (search_and_contents w key q 3) as [e|[|r rs']]; eauto.
  - intros -> Hcfg. rewrite H. subst s. unfold __init__, client, py_or. cbn.
    destruct Hcfg as [->|[->| ->]]; [reflexivity| |]; now destruct (exa_installed w).
Qed.

Lemma search_web_always_answers_witness :
  let w := mkWorld true None (fun _ _ _ => inr []) in
  (None = (None : option State) /\
   (exa_installed w = false \/ getenv_EXA_API_KEY w = None
    \/ getenv_EXA_API_KEY w = Some EmptyString)) /\
  (search_web w None ∅).2 = Ok "Search error: Web search is not configured".
Proof.
  cbv zeta. split; [split; [reflexivity|right; left; reflexivity]|].
  apply (proj2 (search_web_always_answers (mkWorld true None (fun _ _ _ => inr [])) None ∅)
               eq_refl).
  right. left. reflexivity.
Defined.

(** X11. [search] returns either one error dictionary, or one
    dictionary per result of the service, each with exactly the keys
    title, url and text and a text of at most 500 characters. *)
Theorem search_results_shape (w : World) (s : State) (query : string) (num_results : Z) :
  let results := (search w s query num_results).2 in
  (exists e, results = [ {[ "error" := AStr e ]} ]) \/
  (Forall (fun d : gmap string Any =>
             dom d = {[ "title"; "url"; "text" ]} /\
             exists x, d !! "text" = Some (AStr x) /\ (String.length x <= 500)%nat)
          results /\
   exists key rs, (client w s).2 = Some key /\
                  search_and_contents w key query num_results = inr rs /\
                  length results = length rs).
Proof.
  cbv zeta. unfold search.
  destruct (client w s) as [s1 c] eqn:Hc. cbn [snd].
  destruct c as [key|]; [|left; eauto].
  pose proof (client_twice w s key) as Htw. rewrite Hc in Htw. cbn [fst snd] in Htw.
  rewrite (Htw eq_refl).
  destruct (search_and_contents w key query num_results) as [e|rs] eqn:Hs;
    [left; eauto|].
  right. cbn [snd]. split.
  - apply Forall_fmap, Forall_true. intros r. cbn. split.
    + rewrite !dom_insert_L, dom_singleton_L. set_solver.
    + eexists. split; [reflexivity|].
      destruct (text r) as [[|c t]|]; cbn [String.length]; try lia.
      rewrite substring_length. lia.
  - exists key, rs. rewrite length_fmap. auto.
Qed.

Lemma format_entries_ok (rs : list (gmap string Any)) :
  forall i, is_Ok (format_entries i rs) <-> Forall has_result_keys rs.
Proof.
  induction rs as [|r rs IH]; intros i; cbn [format_entries].
  - split; [constructor|exact (fun _ => I)].
  - rewrite Forall_cons. unfold format_entry, getitem. unfold has_result_keys at 1.
    specialize (IH (S i)).
    destruct (r !! "title") as [t|];
      [|cbn [is_Ok]; split; [intros []|intros [([? [=]] & _) _]]].
    destruct (r !! "url") as [u|];
      [|cbn [is_Ok]; split; [intros []|intros [(_ & [? [=]] & _) _]]].
    destruct (r !! "text") as [x|];
      [|cbn [is_Ok]; split; [intros []|intros [(_ & _ & [? [=]]) _]]].
    destruct (format_entries (S i) rs); cbn [is_Ok] in *.
    + split; [intros _|exact (fun _ => I)]. split; [eauto|apply IH; exact I].
    + split; [intros []|]. intros [_ H]. apply IH, H.
Qed.

(** X12. The formatter looks for an error in the first result only:
    when the first has none, it succeeds exactly when every result has
    the keys title, url and text, and raises [KeyError] otherwise. *)
Theorem format_reads_three_keys (first : gmap string Any) (rest : list (gmap string Any)) :
  first !! "error" = None ->
  (is_Ok (format_results_for_llm (first :: rest))
   <-> Forall has_result_keys (first :: rest)) /\
  (first !! "title" = None -> format_results_for_llm (first :: rest) = KeyError "title").
Proof.
  intros Herr. unfold format_results_for_llm. rewrite Herr. split.
  - rewrite <- (format_entries_ok (first :: rest) 1).
    destruct (format_entries 1 (first :: rest)); reflexivity.
  - intros Ht. cbn [format_entries]. unfold format_entry, getitem. rewrite Ht. reflexivity.
Qed.

Lemma format_reads_three_keys_witness :
  let ok : gmap string Any := {[ "title" := AStr "T"; "url" := AStr "u"; "text" := AStr "x" ]} in
  let err : gmap string Any := {[ "error" := AStr "boom" ]} in
  ok !! "error" = None /\
  ~ is_Ok (format_results_for_llm [ok; err]).
Proof.
  cbv zeta.
  assert (Herr : ({[ "title" := AStr "T"; "url" := AStr "u"; "text" := AStr "x" ]}
                    : gmap string Any) !! "error" = None) by reflexivity.
  split; [exact Herr|].
  intros H.
  apply (proj1 (proj1 (format_reads_three_keys
                  {[ "title" := AStr "T"; "url" := AStr "u"; "text" := AStr "x" ]}
                  [ {[ "error" := AStr "boom" ]} ] Herr))) in H.
  apply Forall_cons in H as [_ H]. apply Forall_cons in H as [[[v Hv] _] _].
  discriminate Hv.
Defined.

End WebSearchProperties.

(** ** The book processor *)

Section BookProcessorProperties.
Import BookProcessor.

Lemma file_api_calls (x : Sys) :
  files (file_api x).1 = files x /\ calls (file_api x).1 = calls x /\
  api_key (self (file_api x).1) = api_key (self x) /\
  file_info (self (file_api x).1) = file_info (self x) /\
  _temp_file_path (self (file_api x).1) = _temp_file_path (self x).
Proof.
  unfold file_api. destruct (_file_api (self x)); [repeat split; reflexivity|].
  destruct (api_key (self x)) as [[|c k]|] eqn:Hk; repeat split; cbn; congruence.
Qed.

Lemma clear_cleared (e : Env) (x : Sys) :
  cleared (self (clear e x)) /\ api_key (self (clear e x)) = api_key (self x).
Proof.
  unfold clear, cleared. cbn [self with_self file_info file_uri mime_type book_title
                                _temp_file_path api_key].
  repeat split.
  set (x1 := match file_info (self x) with Some _ => _ | None => _ end).
  assert (H1 : api_key (self x1) = api_key (self x)).
  { subst x1. destruct (file_info (self x)) as [fi|]; [|reflexivity].
    destruct (decide (fi = ∅)); [reflexivity|].
    destruct (fi !! "file") as [f|]; [|reflexivity].
    destruct (f !! "name"); [|reflexivity].
    pose proof (file_api_calls x) as (_ & _ & Hk & _).
    destruct (file_api x) as [x' [exn|key]]; exact Hk. }
  rewrite <- H1.
  destruct (_temp_file_path (self x1)) as [[|c p]|]; try reflexivity.
  destruct (files x1 !! String c p); [|reflexivity].
  destruct (unlink e (String c p)); reflexivity.
Qed.

(** X17. [clear] leaves the five fields of the book unset, whatever the
    deletions do, and clearing twice is clearing once: the second call
    sends no request and removes no file. *)
Theorem clear_twice (e : Env) (x : Sys) :
  cleared (self (clear e x)) /\
  clear e (clear e x) = clear e x.
Proof.
  split; [apply clear_cleared|].
  destruct (clear_cleared e x) as [(Hfi & Hu & Hm & Ht & Hp) _].
  remember (clear e x) as y eqn:Hy. clear Hy.
  destruct y as [[k a fi u m t p] fs cs]. cbn in *. subst.
  reflexivity.
Qed.

Lemma max_file_size_megabytes :
  "File too large. Max size is " +:+ str_of_Z (MAX_FILE_SIZE / (1024 * 1024)) +:+ "MB"
  = "File too large. Max size is 10MB".
Proof. reflexivity. Qed.

(** X13. A rejected file changes nothing: more than 10 MB raises File
    too large, whatever the name, and a name of another type raises Only
    PDF and TXT; in both cases fields, files and requests stay. *)
Theorem rejected_file_changes_nothing (e : Env) (content : list Byte.byte)
    (filename : string) (x : Sys) :
  let r := process_file e content filename x in
  if (MAX_FILE_SIZE <? Z.of_nat (length content))%Z
  then r = (x, inl (ValueError "File too large. Max size is 10MB"))
  else if supported filename
       then True
       else r = (x, inl (ValueError "Only PDF and TXT files are supported")).
Proof.
  cbv zeta. unfold process_file, supported.
  destruct (MAX_FILE_SIZE <? Z.of_nat (length content))%Z.
  - now rewrite max_file_size_megabytes.
  - destruct (endswith (lower filename) ".pdf" || endswith (lower filename) ".txt");
      [exact I|reflexivity].
Qed.

Lemma process_file_post (e : Env) (content : list Byte.byte)
    (filename : string) (x : Sys) :
  let r := process_file e content filename x in
  match r.2 with
  | inr d =>
      supported filename = true /\
      (Z.of_nat (length content) <= MAX_FILE_SIZE)%Z /\
      file_uri (self r.1) = d !! "file_uri" /\
      mime_type (self r.1) = d !! "mime_type" /\
      d !! "mime_type" = Some (if endswith (lower filename) ".pdf"
                               then "application/pdf" else "text/plain") /\
      book_title (self r.1) = Some filename /\
      d !! "filename" = Some filename /\
      has_file (self r.1) = true /\
      exists p, _temp_file_path (self r.1) = Some p /\ files r.1 !! p = Some content
  | inl exn =>
      r.1 = x \/
      cleared (self r.1) \/
      (exists suffix, NamedTemporaryFile e (files x) suffix = inl exn) /\
      book_title (self r.1) = Some filename /\
      file_uri (self r.1) = file_uri (self x) /\
      files r.1 = files x /\ calls r.1 = calls x
  end.
Proof.
  cbv zeta. unfold process_file.
  destruct (Z.ltb_spec MAX_FILE_SIZE (Z.of_nat (length content))) as [Hbig|Hsize];
    [left; reflexivity|].
  destruct (endswith (lower filename) ".pdf" || endswith (lower filename) ".txt") eqn:Hsup;
    cbn [negb]; [|left; reflexivity].
  set (mime := if endswith (lower filename) ".pdf" then "application/pdf" else "text/plain").
  set (suffix := if endswith (lower filename) ".pdf" then ".pdf" else ".txt").
  cbn [with_self self files calls api_key _file_api file_info file_uri mime_type
       book_title _temp_file_path].
  destruct (NamedTemporaryFile e (files x) suffix) as [exn|name] eqn:Htmp.
  { right. right. cbn. repeat split. eauto. }
  match goal with |- context [file_api ?y] => destruct (file_api y) as [x1 api] eqn:Hapi end.
  destruct api as [exn|key]; [right; left; apply clear_cleared|].
  destruct (upload_file e key name filename) as [exn|fi];
    [right; left; apply clear_cleared|].
  destruct (fi !! "file") as [f|]; [|right; left; apply clear_cleared].
  destruct (f !! "uri") as [uri|]; [|right; left; apply clear_cleared].
  destruct (f !! "name") as [file_name|]; [|right; left; apply clear_cleared].
  cbn [fst snd with_self self files calls api_key _file_api file_info file_uri mime_type
       book_title _temp_file_path has_file].
  match type of Hapi with file_api ?y = _ =>
    pose proof (file_api_calls y) as (Hf & _ & _ & _ & Hp); rewrite Hapi in Hf, Hp;
    cbn in Hf, Hp end.
  unfold file_api in Hapi. cbn in Hapi.
  assert (Hfields : mime_type (self x1) = Some mime /\ book_title (self x1) = Some filename).
  { destruct (_file_api (self x)); [injection Hapi as <- _; split; reflexivity|].
    destruct (api_key (self x)) as [[|c k]|]; try discriminate.
    injection Hapi as <- _. split; reflexivity. }
  destruct Hfields as [-> ->].
  repeat split; try reflexivity; try assumption.
  exists name. rewrite Hp, Hf. split; [reflexivity|]. apply lookup_insert_eq.
Qed.

(** X14. What [process_file] leaves behind.  When it returns, the file
    was within the size limit and of a supported type, the fields hold
    the URI and MIME type it returns and the file name as title, the
    MIME type follows the extension, and the temporary file holds the
    content.  When it raises, either nothing changed, or the five fields
    of the book are cleared, or creating the temporary file failed. *)
Theorem process_file_outcomes (e : Env) (content : list Byte.byte)
    (filename : string) (x : Sys) :
  let r := process_file e content filename x in
  match r.2 with
  | inr d =>
      supported filename = true /\
      (Z.of_nat (length content) <= MAX_FILE_SIZE)%Z /\
      file_uri (self r.1) = d !! "file_uri" /\
      mime_type (self r.1) = d !! "mime_type" /\
      d !! "mime_type" = Some (if endswith (lower filename) ".pdf"
                               then "application/pdf" else "text/plain") /\
      book_title (self r.1) = Some filename /\
      d !! "filename" = Some filename /\
      has_file (self r.1) = true /\
      exists p, _temp_file_path (self r.1) = Some p /\ files r.1 !! p = Some content
  | inl exn =>
      r.1 = x \/
      cleared (self r.1) \/
      (exists suffix, NamedTemporaryFile e (files x) suffix = inl exn) /\
      book_title (self r.1) = Some filename /\
      file_uri (self r.1) = file_uri (self x) /\
      files r.1 = files x /\ calls r.1 = calls x
  end.
Proof. exact (process_file_post e content filename x). Qed.

(** X15. A successful [process_file] sends one upload request and no
    deletion, and adds its temporary file without removing any: a book
    uploaded before stays on the service and on disk. *)
Theorem successful_upload_deletes_nothing (e : Env) (content : list Byte.byte)
    (filename : string) (x : Sys) (d : gmap string string) :
  (process_file e content filename x).2 = inr d ->
  exists p,
    calls (process_file e content filename x).1 = calls x ++ [Upload p filename] /\
    files (process_file e content filename x).1 = <[p := content]> (files x).
Proof.
  unfold process_file.
  destruct (MAX_FILE_SIZE <? Z.of_nat (length content))%Z; [discriminate|].
  destruct (endswith (lower filename) ".pdf" || endswith (lower filename) ".txt");
    cbn [negb]; [|discriminate].
  set (suffix := if endswith (lower filename) ".pdf" then ".pdf" else ".txt").
  cbn [with_self self files calls api_key _file_api file_info file_uri mime_type
       book_title _temp_file_path].
  destruct (NamedTemporaryFile e (files x) suffix) as [exn|name]; [discriminate|].
  match goal with |- context [file_api ?y] =>
    pose proof (file_api_calls y) as (Hf & Hc & _); destruct (file_api y) as [x1 api] end.
  cbn in Hf, Hc.
  destruct api as [exn|key]; [discriminate|].
  destruct (upload_file e key name filename) as [exn|fi]; [discriminate|].
  destruct (fi !! "file") as [f|]; [|discriminate].
  destruct (f !! "uri") as [uri|]; [|discriminate].
  destruct (f !! "name") as [file_name|]; [|discriminate].
  intros _. exists name. cbn. rewrite Hf, Hc. split; reflexivity.
Qed.

Lemma successful_upload_deletes_nothing_witness :
  let x := mkSys (__init__ demo_env (Some "key")) ∅ [] in
  exists p,
    calls (process_file demo_env [] "Book.PDF" x).1 = [Upload p "Book.PDF"] /\
    files (process_file demo_env [] "Book.PDF" x).1 = {[ p := [] ]}.
Proof.
  cbv zeta.
  destruct (successful_upload_deletes_nothing demo_env [] "Book.PDF"
              (mkSys (__init__ demo_env (Some "key")) ∅ [])
              {[ "file_uri" := "gemini://files/1"; "mime_type" := "application/pdf";
                 "filename" := "Book.PDF"; "file_name" := "files/1" ]} eq_refl)
    as (p & Hc & Hf).
  exists p. split; [exact Hc|exact Hf].
Defined.

Lemma file_api_ready (x : Sys) (key : string) :
  _file_api (self x) = Some key -> file_api x = (x, inr key).
Proof. intros H. unfold file_api. now rewrite H. Qed.

Lemma clear_with_previous (e : Env) (x : Sys) (fi : FileInfo) (f : gmap string string)
    (n key : string) :
  file_info (self x) = Some fi -> fi !! "file" = Some f -> f !! "name" = Some n ->
  _file_api (self x) = Some key ->
  calls (clear e x) = calls x ++ [Delete n] /\
  files (clear e x)
  = match _temp_file_path (self x) with
    | Some (String c p) =>
        match files x !! String c p, unlink e (String c p) with
        | Some _, None => delete (String c p) (files x)
        | _, _ => files x
        end
    | _ => files x
    end.
Proof.
  intros Hfi Hfile Hname Hapi.
  assert (Hne : fi <> ∅) by (intros ->; rewrite lookup_empty in Hfile; discriminate).
  unfold clear. cbn [with_self calls files].
  set (x1 := match file_info (self x) with Some _ => _ | None => _ end).
  assert (H1 : x1 = mkSys (self x) (files x) (calls x ++ [Delete n])).
  { subst x1. rewrite Hfi. destruct (decide (fi = ∅)) as [|_]; [contradiction|].
    rewrite Hfile, Hname. unfold file_api. rewrite Hapi. reflexivity. }
  rewrite H1. cbn [self files calls].
  destruct (_temp_file_path (self x)) as [[|c p]|]; try (split; reflexivity).
  destruct (files x !! String c p); [|split; reflexivity].
  destruct (unlink e (String c p)); split; reflexivity.
Qed.

Lemma process_file_failed_upload (e : Env) (content : list Byte.byte)
    (filename : string) (x : Sys) (fi : FileInfo) (f : gmap string string)
    (n key p : string) (exn : Exn) :
  (Z.of_nat (length content) <= MAX_FILE_SIZE)%Z ->
  supported filename = true ->
  file_info (self x) = Some fi -> fi !! "file" = Some f -> f !! "name" = Some n ->
  _file_api (self x) = Some key ->
  NamedTemporaryFile e (files x)
    (if endswith (lower filename) ".pdf" then ".pdf" else ".txt") = inr p ->
  upload_file e key p filename = inl exn ->
  let r := process_file e content filename x in
  r.2 = inl exn /\
  calls r.1 = calls x ++ [Upload p filename; Delete n] /\
  cleared (self r.1) /\
  has_file (self r.1) = false /\
  files r.1 = match p, unlink e p with
              | String _ _, None => delete p (<[p := content]> (files x))
              | _, _ => <[p := content]> (files x)
              end.
Proof.
  intros Hsize Hsup Hfi Hfile Hname Hapi Htmp Hup. cbv zeta.
  unfold process_file.
  destruct (Z.ltb_spec MAX_FILE_SIZE (Z.of_nat (length content))) as [Hbig|_]; [lia|].
  unfold supported in Hsup. rewrite Hsup. cbn [negb].
  cbn [with_self self files calls api_key _file_api file_info file_uri mime_type
       book_title _temp_file_path].
  rewrite Htmp, (file_api_ready _ key) by exact Hapi.
  rewrite Hup. cbn [fst snd].
  split; [reflexivity|].
  match goal with |- context [clear e ?y] => set (x2 := y) end.
  destruct (clear_with_previous e x2 fi f n key Hfi Hfile Hname Hapi) as [Hc Hf].
  split; [rewrite Hc; subst x2; cbn [calls]; rewrite <- app_assoc; reflexivity|].
  split; [apply clear_cleared|].
  split; [destruct (clear_cleared e x2) as [(_ & Hu & _) _]; unfold has_file; now rewrite Hu|].
  rewrite Hf. subst x2. cbn [self files _temp_file_path].
  destruct p as [|c p]; [reflexivity|]. rewrite lookup_insert_eq. reflexivity.
Qed.

(** X16. A failed upload costs the previous book: when a processor that
    holds an uploaded file is given a valid new file and the upload
    raises, the exception is raised again, the requests sent are the
    upload and then the deletion of the previous remote file, the five
    fields are cleared, and the new temporary file is removed when
    [os.unlink] succeeds. *)
Theorem failed_upload_deletes_previous_book (e : Env) (content : list Byte.byte)
    (filename : string) (x : Sys) (fi : FileInfo) (f : gmap string string)
    (n key p : string) (exn : Exn) :
  (Z.of_nat (length content) <= MAX_FILE_SIZE)%Z ->
  supported filename = true ->
  file_info (self x) = Some fi -> fi !! "file" = Some f -> f !! "name" = Some n ->
  _file_api (self x) = Some key ->
  NamedTemporaryFile e (files x)
    (if endswith (lower filename) ".pdf" then ".pdf" else ".txt") = inr p ->
  upload_file e key p filename = inl exn ->
  let r := process_file e content filename x in
  r.2 = inl exn /\
  calls r.1 = calls x ++ [Upload p filename; Delete n] /\
  cleared (self r.1) /\
  has_file (self r.1) = false /\
  files r.1 = match p, unlink e p with
              | String _ _, None => delete p (<[p := content]> (files x))
              | _, _ => <[p := content]> (files x)
              end.
Proof.
  exact (process_file_failed_upload e content filename x fi f n key p exn).
Qed.

Lemma failed_upload_deletes_previous_book_witness :
  let r := process_file failing_env [] "second.txt" holding_first_book in
  r.2 = inl (Exception "503 Service Unavailable") /\
  calls r.1 = [ Upload "/tmp/first.pdf" "first.pdf"; Upload "/tmp/book.txt" "second.txt";
                Delete "files/1" ] /\
  has_file (self r.1) = false.
Proof.
  cbv zeta.
  destruct (failed_upload_deletes_previous_book failing_env [] "second.txt"
              holding_first_book
              {[ "file" := {[ "uri" := "gemini://files/1"; "name" := "files/1" ]} ]}
              {[ "uri" := "gemini://files/1"; "name" := "files/1" ]}
              "files/1" "key" "/tmp/book.txt" (Exception "503 Service Unavailable"))
    as (Hr & Hc & _ & Hh & _); try reflexivity.
  - vm_compute. discriminate.
  - split; [exact Hr|]. split; [exact Hc|exact Hh].
Defined.

Lemma file_api_without_key (x : Sys) :
  _file_api (self x) = None ->
  (api_key (self x) = None \/ api_key (self x) = Some EmptyString) ->
  file_api x = (x, inl (ValueError "GOOGLE_API_KEY is required for file uploads")).
Proof. intros H Hk. unfold file_api. rewrite H. now destruct Hk as [-> | ->]. Qed.

Lemma clear_calls_without_key (e : Env) (x : Sys) :
  _file_api (self x) = None ->
  (api_key (self x) = None \/ api_key (self x) = Some EmptyString) ->
  calls (clear e x) = calls x.
Proof.
  intros Hapi Hkey. unfold clear.
  cbn [with_self calls].
  set (x1 := match file_info (self x) with Some _ => _ | None => _ end).
  assert (H1 : calls x1 = calls x).
  { subst x1. destruct (file_info (self x)) as [fi|]; [|reflexivity].
    destruct (decide (fi = ∅)); [reflexivity|].
    destruct (fi !! "file") as [f|]; [|reflexivity].
    destruct (f !! "name"); [|reflexivity].
    unfold file_api. rewrite Hapi. destruct Hkey as [-> | ->]; reflexivity. }
  rewrite <- H1.
  destruct (_temp_file_path (self x1)) as [[|c p]|]; try reflexivity.
  destruct (files x1 !! String c p); [|reflexivity].
  destruct (unlink e (String c p)); reflexivity.
Qed.

(** X18. Without an API key a valid file raises the [ValueError] of the
    [file_api] property: no request is sent and the fields are cleared. *)
Theorem missing_api_key_is_a_value_error (e : Env) (content : list Byte.byte)
    (filename : string) (x : Sys) (p : string) :
  (Z.of_nat (length content) <= MAX_FILE_SIZE)%Z ->
  supported filename = true ->
  _file_api (self x) = None ->
  (api_key (self x) = None \/ api_key (self x) = Some EmptyString) ->
  NamedTemporaryFile e (files x)
    (if endswith (lower filename) ".pdf" then ".pdf" else ".txt") = inr p ->
  let r := process_file e content filename x in
  r.2 = inl (ValueError "GOOGLE_API_KEY is required for file uploads") /\
  calls r.1 = calls x /\
  cleared (self r.1).
Proof.
  intros Hsize Hsup Hapi Hkey Htmp. cbv zeta.
  unfold process_file.
  destruct (Z.ltb_spec MAX_FILE_SIZE (Z.of_nat (length content))) as [Hbig|_]; [lia|].
  unfold supported in Hsup. rewrite Hsup. cbn [negb].
  cbn [with_self self files calls api_key _file_api file_info file_uri mime_type
       book_title _temp_file_path].
  rewrite Htmp, file_api_without_key by (cbn; assumption).
  cbn [fst snd]. split; [reflexivity|]. split; [|apply clear_cleared].
  rewrite clear_calls_without_key by (cbn; assumption). reflexivity.
Qed.

Lemma missing_api_key_is_a_value_error_witness :
  let e := mkEnv None (fun _ suffix => inr ("/tmp/book" +:+ suffix))
                 (fun _ _ _ => inl (Exception "unreachable")) (fun _ => None) in
  let x := mkSys (__init__ e None) ∅ [] in
  (process_file e [] "notes.txt" x).2
  = inl (ValueError "GOOGLE_API_KEY is required for file uploads") /\
  calls (process_file e [] "notes.txt" x).1 = [].
Proof.
  cbv zeta.
  destruct (missing_api_key_is_a_value_error
              (mkEnv None (fun _ suffix => inr ("/tmp/book" +:+ suffix))
                     (fun _ _ _ => inl (Exception "unreachable")) (fun _ => None))
              [] "notes.txt"
              (mkSys (__init__ (mkEnv None (fun _ suffix => inr ("/tmp/book" +:+ suffix))
                                      (fun _ _ _ => inl (Exception "unreachable"))
                                      (fun _ => None)) None) ∅ [])
              "/tmp/book.txt") as (Hr & Hc & _); try reflexivity.
  - vm_compute. discriminate.
  - left. reflexivity.
  - split; [exact Hr|exact Hc].
Defined.

Lemma lower_app (a b : string) : lower (a +:+ b) = lower a +:+ lower b.
Proof.
  induction a as [|c a IH]; [reflexivity|].
  rewrite string_app_cons. cbn [lower]. rewrite string_app_cons, IH. reflexivity.
Qed.

Lemma lower_split (p q : string) :
  forall s, lower s = p +:+ q -> exists a b, s = a +:+ b /\ lower a = p /\ lower b = q.
Proof.
  induction p as [|c p IH]; intros s Hs.
  - exists EmptyString, s. repeat split. exact Hs.
  - destruct s as [|c' s]; [discriminate|].
    cbn [lower] in Hs. rewrite string_app_cons in Hs. injection Hs as Hc Hs.
    destruct (IH s Hs) as (a & b & -> & Ha & Hb).
    exists (String c' a), b. rewrite string_app_cons. cbn [lower].
    rewrite Hc, Ha. repeat split. exact Hb.
Qed.

Lemma substring_app_skip (a b : string) (m : nat) :
  String.substring (String.length a) m (a +:+ b) = String.substring 0 m b.
Proof. induction a as [|c a IH]; [reflexivity|exact IH]. Qed.

Lemma endswith_iff (s suffix : string) :
  endswith s suffix = true <-> exists pre, s = pre +:+ suffix.
Proof.
  unfold endswith. rewrite andb_true_iff, Nat.leb_le, String.eqb_eq. split.
  - intros [Hle Hsub].
    set (k := (String.length s - String.length suffix)%nat) in *.
    exists (String.substring 0 k s).
    assert (Hk : (String.length s - k)%nat = String.length suffix) by lia.
    transitivity (String.substring 0 k s +:+ String.substring k (String.length s - k) s);
      [apply substring_split|].
    rewrite Hk, Hsub. reflexivity.
  - intros [pre ->]. rewrite string_app_length. split; [lia|].
    replace (String.length pre + String.length suffix - String.length suffix)%nat
      with (String.length pre) by lia.
    rewrite substring_app_skip. apply substring_0_length.
Qed.

(** X19. A file name is supported exactly when it ends in .pdf or .txt
    in any mix of upper and lower case. *)
Theorem supported_extension (filename : string) :
  supported filename = true
  <-> exists stem ext,
        filename = stem +:+ ext /\ (lower ext = ".pdf" \/ lower ext = ".txt").
Proof.
  unfold supported. rewrite orb_true_iff, !endswith_iff. split.
  - intros [[pre H]|[pre H]]; destruct (lower_split _ _ _ H) as (a & b & -> & _ & Hb);
      exists a, b; auto.
  - intros (stem & ext & -> & [H|H]); [left|right];
      exists (lower stem); rewrite lower_app, H; reflexivity.
Qed.

End BookProcessorProperties.

(** ** The upload endpoints *)

Section ServerProperties.
Import BookProcessor.
Import Server.



(** X21. A failed re-upload leaves the session out of step: when the
    session holds a book and the upload of a valid new file raises, the
    answer is 500, the previous remote file has been deleted and the
    processor is cleared, but the session entry keeps the URI, MIME type
    and title of the deleted book. *)
Theorem failed_reupload_leaves_stale_session (env : Env) (session_id : string)
    (file : UploadFile) (srv : Server) (session : Session) (name : string)
    (content : list Byte.byte) (fi : FileInfo) (f : gmap string string)
    (n key p msg : string) :
  sessions srv !! session_id = Some session ->
  filename file = Some name -> supported name = true ->
  read file = inr content ->
  (Z.of_nat (length content) <= MAX_FILE_SIZE)%Z ->
  file_info (book_processor session) = Some fi ->
  fi !! "file" = Some f -> f !! "name" = Some n ->
  _file_api (book_processor session) = Some key ->
  NamedTemporaryFile env (files srv)
    (if endswith (lower name) ".pdf" then ".pdf" else ".txt") = inr p ->
  upload_file env key p name = inl (Exception msg) ->
  let r := upload_book env session_id file srv in
  r.2 = HTTPException 500 ("Failed to upload: " +:+ msg) /\
  calls r.1 = calls srv ++ [Upload p name; Delete n] /\
  exists session',
    sessions r.1 !! session_id = Some session' /\
    file_uri session' = file_uri session /\
    mime_type session' = mime_type session /\
    book_title session' = book_title session /\
    has_file (book_processor session') = false /\
    cleared (book_processor session').
Proof.
  intros Hs Hname Hsup Hread Hsize Hfi Hfile Hn Hapi Htmp Hup. cbv zeta.
  unfold upload_book. rewrite Hs, Hname.
  assert (Hnm : match name with String c f0 => String c f0 | EmptyString => "unknown" end
                = name).
  { destruct name; [vm_compute in Hsup; discriminate|reflexivity]. }
  rewrite Hnm. unfold supported in Hsup. rewrite Hsup. cbn [negb]. rewrite Hread.
  pose proof (process_file_failed_upload env content name
                (mkSys (book_processor session) (files srv) (calls srv))
                fi f n key p (Exception msg) Hsize Hsup Hfi Hfile Hn Hapi Htmp Hup)
    as (Hr & Hc & Hcl & Hh & _).
  cbv zeta in Hr, Hc, Hcl, Hh.
  destruct (process_file env content name
              (mkSys (book_processor session) (files srv) (calls srv))) as [x res].
  cbn [fst snd] in *. subst res. cbn [fst snd calls sessions upload_error str_of_exn].
  split; [reflexivity|]. split; [exact Hc|].
  eexists. rewrite lookup_insert_eq. split; [reflexivity|].
  cbn [file_uri mime_type book_title book_processor]. auto.
Qed.

Lemma failed_reupload_leaves_stale_session_witness :
  let file := mkUpload (Some "second.txt") (inr []) in
  let r := upload_book failing_env "s1" file holding_first_session in
  r.2 = HTTPException 500 "Failed to upload: 503 Service Unavailable" /\
  exists session',
    sessions r.1 !! "s1" = Some session' /\
    file_uri session' = Some "gemini://files/1" /\
    has_file (book_processor session') = false.
Proof.
  cbv zeta.
  destruct (failed_reupload_leaves_stale_session failing_env "s1"
              (mkUpload (Some "second.txt") (inr [])) holding_first_session
              (mkSession (BookProcessor.self holding_first_book)
                         (Some "gemini://files/1") (Some "application/pdf")
                         (Some "first.pdf"))
              "second.txt" []
              {[ "file" := {[ "uri" := "gemini://files/1"; "name" := "files/1" ]} ]}
              {[ "uri" := "gemini://files/1"; "name" := "files/1" ]}
              "files/1" "key" "/tmp/book.txt" "503 Service Unavailable")
    as (Hr & _ & s' & Hs & Hu & _ & _ & Hh & _); try reflexivity.
  - vm_compute. discriminate.
  - split; [exact Hr|]. exists s'. split; [exact Hs|]. split; [exact Hu|exact Hh].
Defined.

(** X22. [clear_book] answers 404 for an unknown session and changes
    nothing; otherwise it answers success, and the session and its
    processor both hold no book; the API key is kept. *)
Theorem clear_book_resets (env : Env) (session_id : string) (srv : Server) :
  let r := clear_book env session_id srv in
  match sessions srv !! session_id with
  | None => r = (srv, HTTPException 404 "Session not found")
  | Some session =>
      r.2 = Return {[ "success" := JBool true ]} /\
      exists session',
        sessions r.1 !! session_id = Some session' /\
        file_uri session' = None /\ mime_type session' = None /\
        book_title session' = None /\
        in_step session' /\
        has_file (book_processor session') = false /\
        api_key (book_processor session') = api_key (book_processor session)
  end.
Proof.
  cbv zeta. unfold clear_book.
  destruct (sessions srv !! session_id) as [session|]; [|reflexivity].
  cbn [fst snd sessions]. split; [reflexivity|].
  destruct (clear_cleared env (mkSys (book_processor session) (files srv) (calls srv)))
    as [(Hfi & Hu & Hm & Ht & Hp) Hk].
  eexists. rewrite lookup_insert_eq. split; [reflexivity|].
  unfold in_step, get_file_uri, get_mime_type, get_title, has_file.
  cbn [file_uri mime_type book_title book_processor].
  rewrite Hu, Hm, Ht. cbn in Hk. repeat split; auto.
Qed.

(** X23. Sessions do not touch each other: uploading to, clearing or
    creating one session leaves the entry of any other as it was. *)
Theorem other_sessions_untouched (env : Env) (session_id other : string)
    (file : UploadFile) (srv : Server) :
  other <> session_id ->
  sessions (upload_book env session_id file srv).1 !! other = sessions srv !! other /\
  sessions (clear_book env session_id srv).1 !! other = sessions srv !! other /\
  sessions (create_session env session_id srv).1 !! other = sessions srv !! other.
Proof.
  intros Hne. split; [|split].
  - unfold upload_book.
    destruct (sessions srv !! session_id) as [session|]; [|reflexivity].
    destruct (negb _); [reflexivity|].
    destruct (read file) as [e|content]; [reflexivity|].
    destruct (process_file _ _ _ _) as [x [e|d]];
      cbn [fst snd sessions]; [now rewrite lookup_insert_ne by auto|].
    repeat (match goal with
            | |- context [match ?t with Some _ => _ | None => _ end] => destruct t
            end; cbn [fst snd sessions]);
      rewrite ?lookup_insert_ne by auto; reflexivity.
  - unfold clear_book.
    destruct (sessions srv !! session_id) as [session|]; [|reflexivity].
    cbn [fst snd sessions]. now rewrite lookup_insert_ne by auto.
  - unfold create_session. cbn [fst snd sessions]. now rewrite lookup_insert_ne by auto.
Qed.

Lemma other_sessions_untouched_witness :
  let file := mkUpload (Some "second.txt") (inr []) in
  "s1" <> "s2" /\
  sessions (upload_book failing_env "s2" file holding_first_session).1 !! "s1"
    = sessions holding_first_session !! "s1" /\
  sessions (create_session failing_env "s2" holding_first_session).1 !! "s1"
    = sessions holding_first_session !! "s1".
Proof.
  cbv zeta.
  assert (Hne : "s1" <> "s2") by discriminate.
  destruct (other_sessions_untouched failing_env "s2" "s1"
              (mkUpload (Some "second.txt") (inr [])) holding_first_session Hne)
    as (Hu & _ & Hc).
  split; [exact Hne|]. split; [exact Hu|exact Hc].
Defined.

End ServerProperties.
